(** * Synchronous circuits of [5_fsm/fsm.py]: counter, debouncer, classic FSM

    The circuits are written against an HDL simulation library in which a
    signal has a current value and a staged [next] value.  A block decorated
    with [seq_logic(clk.posedge)] runs at every rising clock edge, reads
    current values only and stages new ones; all staged values are committed
    together after every block has run.  A block decorated with [comb_logic]
    is re-run until its outputs agree with the current values of its inputs.

    Each sequential block is embedded as a function from the current values
    to the staged values.  A register that a block leaves unassigned keeps its
    staged value, which between two edges equals its current value, so an
    empty branch ([pass], or a missing [else]) stages the current value. *)

From Stdlib Require Import ZArith List Bool Lia.
Import ListNotations.

Local Open Scope Z_scope.

(** ** Buses of the HDL library

    The library that provides [Bus], [Wire] and [State] is imported by the
    source file and is not part of it; what the circuits use of it is
    modelled here. *)

Module hdl.

(** Modelled from the spec: the library's [Bus] class is missing; a bus is a
    fixed-width bit vector, [Bus(width)] holds a value in [0, 2^width) and
    [bus.max] is the exclusive upper bound. *)
Definition bus_max (width : Z) : Z := 2 ^ width.

(** Modelled from the spec: the library's assignment to [bus.next] is
    missing; the staged value is taken modulo [2^width]. *)
Definition bus_assign (width v : Z) : Z := v mod bus_max width.

(** Modelled from the spec: the library's [~bus] is missing; on a bit vector
    it is the complement restricted to the bus width. *)
Definition bus_invert (width v : Z) : Z := Z.land (Z.lnot v) (Z.ones width).

(** Modelled from the spec: the library's check of a bus width is missing; a
    signal has width at least 1, and [Bus(width)] with any other width is
    refused with an error when the circuit is constructed. *)
Definition bus_ok (width : Z) : bool := 0 <? width.

(** The mathematical value of [ceil(log2(n))].  The source evaluates
    [int(ceil(log2(n)))] in floating point, which need not give this value
    for large [n] (it gives 49, not 50, at [2^49 + 1]).  It is used below
    only at 1, 2, 4 and 120001, where the floating-point result is this value;
    nothing is stated about other arguments through it. *)
Definition ceil_log2 (n : Z) : Z := Z.log2_up n.

End hdl.

(** ** [counter_en_rst] *)

Module counter_en_rst.

Section Width.

(** [len(cnt_o)], the width of the count register. *)
Variable width : Z.

(** The block reads the wires [rst] and [en], which are the wires bound
    to [rst_i] and [en_i] where the counter is instantiated. *)
Definition next_state_logic (rst en : bool) (cnt : Z) : Z :=
  if Bool.eqb rst true then hdl.bus_assign width 0
  else if Bool.eqb en true then hdl.bus_assign width (cnt + 1)
  else cnt.

Definition output_logic (cnt : Z) : Z := cnt.

(** One rising edge: the staged count is committed. *)
Definition posedge (rst en : bool) (cnt : Z) : Z :=
  next_state_logic rst en cnt.

(** The count after the edges of a stimulus, each edge with the values of
    [(rst, en)] it samples, oldest first. *)
Definition run (stim : list (bool * bool)) (cnt : Z) : Z :=
  fold_left (fun c '(rst, en) => posedge rst en c) stim cnt.

End Width.

End counter_en_rst.

(** ** [debouncer] *)

Module debouncer.

Record signals : Set := mk {
  debounce_cnt : Z;     (* Bus(ceil(log2(debounce_time + 1))) *)
  prev_button : bool;   (* Wire *)
  button_o : bool       (* Wire, driven by [output_logic] *)
}.

Definition init : signals :=
  {| debounce_cnt := 0; prev_button := false; button_o := false |}.

(** The width asked of [debounce_cnt], [ceil(log2(debounce_time + 1))], at
    the windows where the source's floating-point evaluation is exact. *)
Definition cnt_width (debounce_time : Z) : Z :=
  hdl.ceil_log2 (debounce_time + 1).

(** Construction of the debouncer with a counter of [cnt_bits] bits: the
    library refuses the counter bus unless its width is positive. *)
Definition construct (cnt_bits : Z) : option signals :=
  if hdl.bus_ok cnt_bits then Some init else None.

Section Window.

(** [len(debounce_cnt)]: the width that [int(ceil(log2(debounce_time + 1)))]
    came to when the debouncer was constructed.  It is a parameter of the
    circuit, so that nothing depends on how the floating-point logarithm
    rounds. *)
Variable cnt_bits : Z.

Variable debounce_time : Z.

(** Stages [debounce_cnt] and [prev_button]. *)
Definition next_state_logic (button_i : bool) (s : signals) : Z * bool :=
  let cnt' :=
    if Bool.eqb button_i (prev_button s) then
      if negb (debounce_cnt s =? 0)
      then hdl.bus_assign cnt_bits (debounce_cnt s - 1)
      else debounce_cnt s
    else hdl.bus_assign cnt_bits debounce_time in
  (cnt', button_i).

(** Stages [button_o]; it is a clocked block as well, so it reads the
    counter and the stored button as they are before the edge. *)
Definition output_logic (s : signals) : bool :=
  if debounce_cnt s =? 0 then prev_button s else button_o s.

(** One rising edge: both blocks run on the current values, then the
    staged values are committed together. *)
Definition posedge (button_i : bool) (s : signals) : signals :=
  let '(cnt', prev') := next_state_logic button_i s in
  {| debounce_cnt := cnt'; prev_button := prev'; button_o := output_logic s |}.

(** The debouncer after the edges that sample [raw], oldest first. *)
Definition run (raw : list bool) (s : signals) : signals :=
  fold_left (fun st b => posedge b st) raw s.

(** The value of [button_o] after each of those edges. *)
Fixpoint outputs (raw : list bool) (s : signals) : list bool :=
  match raw with
  | [] => []
  | b :: raw' => button_o (posedge b s) :: outputs raw' (posedge b s)
  end.

End Window.

End debouncer.

(** ** [classic_fsm] *)

Module classic_fsm.

(** [State('A', 'B', 'C', 'D')]: the state register holds the index of the
    current state name; the first name is the initial state. *)
Definition A : Z := 0.
Definition B : Z := 1.
Definition C : Z := 2.
Definition D : Z := 3.

Definition debounce_time : Z := 120000.

(** Width of the two debounce counters: 17 bits, the value the source's
    floating-point computation gives at 120001. *)
Definition dbnc_cnt_bits : Z := debouncer.cnt_width debounce_time.

(** Width of [inputs_i], [prev_inputs], [input_chgs] and [dbnc_inputs]. *)
Definition inputs_width : Z := 2.

(** Width of [reset_cnt]. *)
Definition reset_cnt_width : Z := 2.

Record signals : Set := mk {
  fsm_state : Z;
  reset_cnt : Z;
  prev_inputs : Z;
  dbnc0 : debouncer.signals;  (* its [button_o] is [dbnc_inputs.i[0]] *)
  dbnc1 : debouncer.signals;  (* its [button_o] is [dbnc_inputs.i[1]] *)
  dbnc_inputs : Z;            (* combinational *)
  input_chgs : Z;             (* combinational *)
  outputs_o : Z               (* combinational *)
}.

(** [dbnc_inputs] is assembled from its two input wires. *)
Definition join_wires (w0 w1 : bool) : Z :=
  Z.lor (Z.b2z w0) (Z.shiftl (Z.b2z w1) 1).

Definition detect_chg (dbnc prev : Z) : Z :=
  hdl.bus_assign inputs_width (Z.land dbnc (hdl.bus_invert inputs_width prev)).

(** The guard of the start-up branch, [reset_cnt < reset_cnt.max - 1]. *)
Definition lockout (cnt : Z) : bool := cnt <? hdl.bus_max reset_cnt_width - 1.

(** Stages [fsm_state] and [reset_cnt]. *)
Definition next_state_logic (cnt state chgs : Z) : Z * Z :=
  if lockout cnt then
    (A, hdl.bus_assign reset_cnt_width (cnt + 1))
  else if state =? A then
    if Z.testbit chgs 0 then (B, cnt)
    else if Z.testbit chgs 1 then (D, cnt)
    else (state, cnt)
  else if state =? B then
    if Z.testbit chgs 0 then (C, cnt)
    else if Z.testbit chgs 1 then (A, cnt)
    else (state, cnt)
  else if state =? C then
    if Z.testbit chgs 0 then (D, cnt)
    else if Z.testbit chgs 1 then (B, cnt)
    else (state, cnt)
  else if state =? D then
    if Z.testbit chgs 0 then (A, cnt)
    else if Z.testbit chgs 1 then (C, cnt)
    else (state, cnt)
  else (A, cnt).

Definition output_logic (state : Z) : Z :=
  if state =? A then 1       (* 0b0001 *)
  else if state =? B then 2  (* 0b0010 *)
  else if state =? C then 4  (* 0b0100 *)
  else if state =? D then 8  (* 0b1000 *)
  else 15.                   (* 0b1111 *)

(** The combinational blocks brought up to date with the registers. *)
Definition settle (s : signals) : signals :=
  let dbnc := join_wires (debouncer.button_o (dbnc0 s))
                         (debouncer.button_o (dbnc1 s)) in
  {| fsm_state := fsm_state s;
     reset_cnt := reset_cnt s;
     prev_inputs := prev_inputs s;
     dbnc0 := dbnc0 s;
     dbnc1 := dbnc1 s;
     dbnc_inputs := dbnc;
     input_chgs := detect_chg dbnc (prev_inputs s);
     outputs_o := output_logic (fsm_state s) |}.

(** The clocked blocks of the FSM and of its two debouncers, run on the
    current values and committed together. *)
Definition commit (inputs_i : Z) (s : signals) : signals :=
  let '(state', cnt') :=
    next_state_logic (reset_cnt s) (fsm_state s) (input_chgs s) in
  {| fsm_state := state';
     reset_cnt := cnt';
     prev_inputs := hdl.bus_assign inputs_width (dbnc_inputs s);
     dbnc0 := debouncer.posedge dbnc_cnt_bits debounce_time
                (Z.testbit inputs_i 0) (dbnc0 s);
     dbnc1 := debouncer.posedge dbnc_cnt_bits debounce_time
                (Z.testbit inputs_i 1) (dbnc1 s);
     dbnc_inputs := dbnc_inputs s;
     input_chgs := input_chgs s;
     outputs_o := outputs_o s |}.

(** One rising edge with [inputs_i] on the input bus. *)
Definition posedge (inputs_i : Z) (s : signals) : signals :=
  settle (commit inputs_i s).

(** The circuit as constructed: every signal at its initial value, the
    combinational blocks run once. *)
Definition init : signals :=
  settle {| fsm_state := A; reset_cnt := 0; prev_inputs := 0;
            dbnc0 := debouncer.init; dbnc1 := debouncer.init;
            dbnc_inputs := 0; input_chgs := 0; outputs_o := 0 |}.

(** The circuit after the edges that sample [ins], oldest first. *)
Definition run (ins : list Z) (s : signals) : signals :=
  fold_left (fun st i => posedge i st) ins s.

(** The values of the state register that carry a name. *)
Definition named (state : Z) : Prop :=
  state = A \/ state = B \/ state = C \/ state = D.

(** The test bench's names for the values of the input bus. *)
Definition nop : Z := 0.
Definition fwd : Z := 1.
Definition bck : Z := 2.

(** [next_state_logic] driven by a list of [input_chgs] values, one per
    edge, from the given lockout counter and state. *)
Definition drive (chgs : list Z) (cs : Z * Z) : Z * Z :=
  fold_left (fun '(state, cnt) chg => next_state_logic cnt state chg) chgs cs.

(** Number of set bits among the lowest [n] bits. *)
Fixpoint bits_set (n : nat) (v : Z) : nat :=
  match n with
  | O => O
  | S n' => ((if Z.testbit v (Z.of_nat n') then 1 else 0) + bits_set n' v)%nat
  end.

End classic_fsm.

(** ** The specification's wording, for comparison with the code *)

Module spec.

(** The four named states and the transition table of the specification:
    [fwd_of] is the column of [edge[0]], [bck_of] the column of [edge[1]]. *)
Inductive state_name : Set := sA | sB | sC | sD.

Definition encode (n : state_name) : Z :=
  match n with
  | sA => classic_fsm.A
  | sB => classic_fsm.B
  | sC => classic_fsm.C
  | sD => classic_fsm.D
  end.

Definition fwd_of (n : state_name) : state_name :=
  match n with sA => sB | sB => sC | sC => sD | sD => sA end.

Definition bck_of (n : state_name) : state_name :=
  match n with sA => sD | sB => sA | sC => sB | sD => sC end.

(** [edge[0]] has priority over [edge[1]]; no edge, the state holds. *)
Definition table_next (n : state_name) (edge0 edge1 : bool) : state_name :=
  if edge0 then fwd_of n else if edge1 then bck_of n else n.

(** One-hot output code of a named state. *)
Definition code (n : state_name) : Z :=
  match n with sA => 1 | sB => 2 | sC => 4 | sD => 8 end.

(** The raw input takes the value [negb v] on the edges [i .. i+n-1] of
    [raw], after an edge with value [v], and [v] again on edge [i+n]. *)
Definition blip (raw : list bool) (i n : nat) (v : bool) : Prop :=
  (1 <= i)%nat /\ (1 <= n)%nat /\
  nth_error raw (i - 1) = Some v /\
  (forall k, (k < n)%nat -> nth_error raw (i + k) = Some (negb v)) /\
  nth_error raw (i + n) = Some v.

(** Suppression as the specification words it: across any blip shorter
    than the window, from the edge before the change to the edge of the
    change back, the stable output keeps one value. *)
Definition suppressed (cnt_bits debounce_time : Z) (raw : list bool) : Prop :=
  forall i n v, blip raw i n v -> Z.of_nat n < debounce_time ->
  forall k, (i - 1 <= k <= i + n)%nat ->
    nth_error (debouncer.outputs cnt_bits debounce_time raw debouncer.init) k =
    nth_error (debouncer.outputs cnt_bits debounce_time raw debouncer.init)
      (i - 1).

(** The state invariant as the specification words it: with the counter
    at 0 the stable output equals the stored previous input. *)
Definition output_tracks_prev (s : debouncer.signals) : Prop :=
  debouncer.debounce_cnt s = 0 ->
  debouncer.button_o s = debouncer.prev_button s.

(** The zero-window edge case as the specification words it: a debouncer
    with window 0 is constructed, and over every input trace its output
    after each edge is the raw input of the edge before. *)
Definition zero_window_delay : Prop :=
  exists s0,
    debouncer.construct (debouncer.cnt_width 0) = Some s0 /\
    forall raw,
      debouncer.outputs (debouncer.cnt_width 0) 0 raw s0
      = firstn (length raw) (false :: raw).

End spec.

(** ** [counter] *)

Module counter.

Section Width.

(** [len(cnt_o)], the width of the count register. *)
Variable width : Z.

Definition next_state_logic (cnt : Z) : Z := hdl.bus_assign width (cnt + 1).

Definition output_logic (cnt : Z) : Z := cnt.

Definition posedge (cnt : Z) : Z := next_state_logic cnt.

(** [clk_sim(clk, num_cycles)]: the count after that many rising edges. *)
Fixpoint clk_sim (num_cycles : nat) (cnt : Z) : Z :=
  match num_cycles with
  | O => cnt
  | S n => clk_sim n (posedge cnt)
  end.

End Width.

End counter.

(** ** The test benches

    Each test bench sets its inputs and then toggles the clock; what it
    applies is the list of input values sampled by the successive rising
    edges. *)

Module testbench.

(** [cntr_tb]: [(rst, en)] at each of its 13 edges. *)
Definition cntr_tb : list (bool * bool) :=
  repeat (false, true) 4 ++ repeat (false, false) 2 ++
  repeat (false, true) 2 ++ [(true, true)] ++ repeat (false, true) 4.

(** [debounce_tb]: [button_i] at each of its 13 edges. *)
Definition debounce_tb : list bool :=
  repeat true 4 ++ repeat false 2 ++ repeat true 2 ++ repeat false 5.

(** [fsm_tb]: [inputs] at each of its 22 edges. *)
Definition fsm_tb : list Z :=
  let nop := classic_fsm.nop in
  let fwd := classic_fsm.fwd in
  let bck := classic_fsm.bck in
  [nop; nop; nop; nop; fwd; fwd; fwd; bck; bck; bck] ++
  [fwd; nop; fwd; nop; fwd; nop; bck; nop; bck; nop; bck; nop].

End testbench.

(** ** Reference quantities for the statements below *)

Module reference.

(** Number of edges of a stimulus at which enable is set. *)
Definition enabled_edges (stim : list (bool * bool)) : Z :=
  Z.of_nat (length (filter snd stim)).

(** No edge of the stimulus has reset set. *)
Definition no_reset (stim : list (bool * bool)) : Prop :=
  Forall (fun re => fst re = false) stim.

(** What an [input_chgs] value does to the position in the ring of states:
    one forward for bit 0, else one backward for bit 1, else nothing. *)
Definition ring_step (chgs : Z) : Z :=
  if Z.testbit chgs 0 then 1 else if Z.testbit chgs 1 then -1 else 0.

Definition ring_steps (chgs : list Z) : Z :=
  fold_right (fun c acc => ring_step c + acc) 0 chgs.

(** Bit [k] of each value of the input bus. *)
Definition bit_trace (k : Z) (ins : list Z) : list bool :=
  map (fun i => Z.testbit i k) ins.

(** The value of [input_chgs] that each edge of a run finds. *)
Fixpoint chgs_trace (ins : list Z) (s : classic_fsm.signals) : list Z :=
  match ins with
  | [] => []
  | i :: ins' =>
      classic_fsm.input_chgs s :: chgs_trace ins' (classic_fsm.posedge i s)
  end.

(** Where the FSM rests when one input value is held from construction. *)
Definition held_state (i : Z) : Z :=
  if Z.testbit i 0 then classic_fsm.B
  else if Z.testbit i 1 then classic_fsm.D
  else classic_fsm.A.

End reference.

(** * Properties *)

(** ** Buses *)

Lemma bus_assign_small (width v : Z) :
  0 <= v < 2 ^ width -> hdl.bus_assign width v = v.
Proof. intros H. unfold hdl.bus_assign, hdl.bus_max. now apply Z.mod_small. Qed.

Lemma bus_assign_zero (width : Z) : hdl.bus_assign width 0 = 0.
Proof. unfold hdl.bus_assign. apply Zmod_0_l. Qed.

(** ** Counter with enable and reset *)

(** C2: at every clock edge of [counter_en_rst], reset stages 0 whatever
    enable is; without reset, enable stages the successor modulo [2^width];
    with neither, the count is held. *)
Theorem counter_en_rst_priority (width cnt : Z) :
  (forall en, counter_en_rst.next_state_logic width true en cnt = 0) /\
  counter_en_rst.next_state_logic width false true cnt = (cnt + 1) mod 2 ^ width /\
  counter_en_rst.next_state_logic width false false cnt = cnt.
Proof.
  unfold counter_en_rst.next_state_logic. cbn [Bool.eqb].
  split; [intros en; apply bus_assign_zero | split; reflexivity].
Qed.

(** ** Debouncer

    The facts below are about a debouncer whose counter has [cnt_bits] bits
    and can hold the window: [debounce_time < 2 ^ cnt_bits]. *)

Section DebouncerFacts.

Variable cnt_bits : Z.
Variable W : Z.
Hypothesis W_fits : 0 <= W < 2 ^ cnt_bits.

(** The three cases of one edge. *)
Lemma posedge_changed b c p o :
  b <> p ->
  debouncer.posedge cnt_bits W b (debouncer.mk c p o) =
  debouncer.mk W b (if c =? 0 then p else o).
Proof using W_fits.
  intros Hne.
  unfold debouncer.posedge, debouncer.next_state_logic, debouncer.output_logic.
  simpl. destruct (Bool.eqb b p) eqn:E.
  - apply Bool.eqb_prop in E. contradiction.
  - rewrite bus_assign_small by exact W_fits. reflexivity.
Qed.

Lemma posedge_counting b c o :
  0 < c <= W ->
  debouncer.posedge cnt_bits W b (debouncer.mk c b o) = debouncer.mk (c - 1) b o.
Proof using W_fits.
  intros Hc.
  unfold debouncer.posedge, debouncer.next_state_logic, debouncer.output_logic.
  simpl. rewrite Bool.eqb_reflx.
  destruct (c =? 0) eqn:E; [apply Z.eqb_eq in E; lia|]. simpl.
  rewrite bus_assign_small by lia. reflexivity.
Qed.

Lemma posedge_idle b o :
  debouncer.posedge cnt_bits W b (debouncer.mk 0 b o) = debouncer.mk 0 b b.
Proof.
  unfold debouncer.posedge, debouncer.next_state_logic, debouncer.output_logic.
  simpl. now rewrite Bool.eqb_reflx.
Qed.

Lemma run_app raw1 raw2 s :
  debouncer.run cnt_bits W (raw1 ++ raw2) s =
  debouncer.run cnt_bits W raw2 (debouncer.run cnt_bits W raw1 s).
Proof. apply fold_left_app. Qed.

Lemma run_cons b raw s :
  debouncer.run cnt_bits W (b :: raw) s =
  debouncer.run cnt_bits W raw (debouncer.posedge cnt_bits W b s).
Proof. reflexivity. Qed.

Lemma outputs_app raw1 raw2 s :
  debouncer.outputs cnt_bits W (raw1 ++ raw2) s =
  debouncer.outputs cnt_bits W raw1 s ++
  debouncer.outputs cnt_bits W raw2 (debouncer.run cnt_bits W raw1 s).
Proof.
  revert s. induction raw1 as [|b raw1 IH]; intros s; simpl.
  - reflexivity.
  - f_equal. apply IH.
Qed.

Lemma outputs_length raw s :
  length (debouncer.outputs cnt_bits W raw s) = length raw.
Proof.
  revert s. induction raw as [|b raw IH]; intros s; simpl; [reflexivity|].
  f_equal. apply IH.
Qed.

(** While the raw input agrees with the stored one and the counter has not
    run out, the counter counts down and the output is held. *)
Lemma counting_down (k : nat) : forall c b o,
  Z.of_nat k <= c <= W ->
  debouncer.run cnt_bits W (repeat b k) (debouncer.mk c b o)
    = debouncer.mk (c - Z.of_nat k) b o /\
  debouncer.outputs cnt_bits W (repeat b k) (debouncer.mk c b o) = repeat o k.
Proof using W_fits.
  induction k as [|k IH]; intros c b o Hc.
  - simpl. split; [f_equal; lia | reflexivity].
  - cbn [repeat debouncer.outputs]. rewrite run_cons.
    rewrite posedge_counting by lia.
    destruct (IH (c - 1) b o ltac:(lia)) as [Hr Ho].
    rewrite Hr, Ho. cbn [debouncer.button_o].
    split; [f_equal; lia | reflexivity].
Qed.

(** Once output and stored input agree with a steady raw input, the output
    keeps that value whatever the counter does. *)
Lemma steady (m : nat) : forall c v,
  debouncer.outputs cnt_bits W (repeat v m) (debouncer.mk c v v) = repeat v m /\
  debouncer.button_o
    (debouncer.run cnt_bits W (repeat v m) (debouncer.mk c v v)) = v.
Proof.
  induction m as [|m IH]; intros c v.
  - split; reflexivity.
  - cbn [repeat debouncer.outputs]. rewrite run_cons.
    assert (E : exists c', debouncer.posedge cnt_bits W v (debouncer.mk c v v)
                           = debouncer.mk c' v v).
    { unfold debouncer.posedge, debouncer.next_state_logic,
        debouncer.output_logic. cbn.
      destruct (c =? 0); eexists; reflexivity. }
    destruct E as [c' E]. rewrite E. cbn [debouncer.button_o].
    destruct (IH c' v) as [Ho Hr].
    rewrite Ho. split; [reflexivity | exact Hr].
Qed.

(** The counter stays in the window. *)
Lemma cnt_range_posedge (b : bool) (s : debouncer.signals) :
  0 <= debouncer.debounce_cnt s <= W ->
  0 <= debouncer.debounce_cnt (debouncer.posedge cnt_bits W b s) <= W.
Proof using W_fits.
  intros Hc. destruct s as [c p o]. simpl in Hc.
  destruct (Bool.eqb b p) eqn:E.
  - apply Bool.eqb_prop in E. subst p.
    destruct (Z.eq_dec c 0) as [-> | Hne].
    + rewrite posedge_idle. simpl. lia.
    + rewrite posedge_counting by lia. simpl. lia.
  - rewrite posedge_changed; [simpl; lia |].
    intros ->. now rewrite Bool.eqb_reflx in E.
Qed.

Lemma cnt_range_run (raw : list bool) : forall s,
  0 <= debouncer.debounce_cnt s <= W ->
  0 <= debouncer.debounce_cnt (debouncer.run cnt_bits W raw s) <= W.
Proof using W_fits.
  induction raw as [|b raw IH]; intros s Hc.
  - exact Hc.
  - rewrite run_cons. apply IH. now apply cnt_range_posedge.
Qed.

End DebouncerFacts.

(** A counter that holds a window of at least 1 has a width the library
    accepts. *)
Lemma fits_constructs (cnt_bits W : Z) :
  1 <= W < 2 ^ cnt_bits -> debouncer.construct cnt_bits = Some debouncer.init.
Proof.
  intros H. unfold debouncer.construct, hdl.bus_ok.
  destruct (0 <? cnt_bits) eqn:E; [reflexivity|].
  apply Z.ltb_ge in E. destruct (Z.eq_dec cnt_bits 0) as [-> | Hne].
  - cbn in H. lia.
  - rewrite Z.pow_neg_r in H by lia. lia.
Qed.

(** C6, as amended: for a debouncer whose counter holds the window, in every
    state it reaches the down-counter lies in [0, W]; an edge sets it to [W]
    when the raw input differs from the stored previous input and otherwise
    decrements it, stopping at 0; and an edge that finds the counter at 0
    loads the stored previous input into the stable output, which otherwise
    is held.  The output therefore equals the stored input of the cycle
    before, not of the same cycle. *)
Theorem debounce_state_invariant (cnt_bits W : Z) (raw : list bool)
    (b : bool) :
  1 <= W < 2 ^ cnt_bits ->
  let s := debouncer.run cnt_bits W raw debouncer.init in
  debouncer.construct cnt_bits = Some debouncer.init /\
  0 <= debouncer.debounce_cnt s <= W /\
  debouncer.debounce_cnt s < hdl.bus_max cnt_bits /\
  debouncer.debounce_cnt (debouncer.posedge cnt_bits W b s) =
    (if Bool.eqb b (debouncer.prev_button s)
     then Z.max 0 (debouncer.debounce_cnt s - 1) else W) /\
  debouncer.button_o (debouncer.posedge cnt_bits W b s) =
    (if debouncer.debounce_cnt s =? 0
     then debouncer.prev_button s else debouncer.button_o s).
Proof.
  intros HW s.
  assert (Hfit : 0 <= W < 2 ^ cnt_bits) by lia.
  assert (Hc : 0 <= debouncer.debounce_cnt s <= W).
  { apply cnt_range_run; [assumption | simpl; lia]. }
  split; [now apply (fits_constructs cnt_bits W)|].
  split; [exact Hc|]. split; [unfold hdl.bus_max; lia|].
  split; [|reflexivity].
  clearbody s. destruct s as [c p o].
  cbn [debouncer.debounce_cnt debouncer.prev_button] in Hc |- *.
  destruct (Bool.eqb b p) eqn:E.
  - apply Bool.eqb_prop in E. subst p.
    destruct (Z.eq_dec c 0) as [-> | Hne].
    + rewrite posedge_idle. reflexivity.
    + rewrite posedge_counting by lia. cbn [debouncer.debounce_cnt]. lia.
  - rewrite posedge_changed; [reflexivity | assumption |].
    intros ->. now rewrite Bool.eqb_reflx in E.
Qed.

(** The source's own debouncer: window 3 on a 2-bit counter. *)
Lemma debounce_state_invariant_witness :
  1 <= 3 < 2 ^ debouncer.cnt_width 3 /\
  let s := debouncer.run (debouncer.cnt_width 3) 3 [true; true]
             debouncer.init in
  0 <= debouncer.debounce_cnt s <= 3 /\
  debouncer.debounce_cnt
    (debouncer.posedge (debouncer.cnt_width 3) 3 false s) =
    (if Bool.eqb false (debouncer.prev_button s)
     then Z.max 0 (debouncer.debounce_cnt s - 1) else 3) /\
  debouncer.button_o (debouncer.posedge (debouncer.cnt_width 3) 3 false s) =
    (if debouncer.debounce_cnt s =? 0
     then debouncer.prev_button s else debouncer.button_o s).
Proof.
  assert (H : 1 <= 3 < 2 ^ debouncer.cnt_width 3) by (vm_compute; split; congruence).
  split; [exact H|].
  destruct (debounce_state_invariant (debouncer.cnt_width 3) 3 [true; true]
              false H) as (_ & H1 & _ & H2 & H3).
  split; [exact H1|]. split; [exact H2 | exact H3].
Defined.

(** C6, as stated, fails: with window 3, after four edges that sample a raw
    1 the counter is back at 0 and the stored input is 1, while the stable
    output is still 0. *)
Lemma debounce_output_lags_stored_input :
  ~ spec.output_tracks_prev
      (debouncer.run (debouncer.cnt_width 3) 3 [true; true; true; true]
         debouncer.init).
Proof.
  unfold spec.output_tracks_prev. intros H.
  specialize (H eq_refl). vm_compute in H. discriminate H.
Qed.

(** C3, as stated, fails on the test bench's own stimulus: with window 3,
    four edges of raw 1 are followed by a two-cycle blip to 0; the edge that
    samples the first 0 still finds the counter at 0 and raises the output,
    so the output changes inside the blip. *)
Lemma debounce_blip_not_suppressed :
  ~ spec.suppressed (debouncer.cnt_width 3) 3
      [true; true; true; true; false; false; true].
Proof.
  intros H.
  assert (Hb : spec.blip [true; true; true; true; false; false; true]
                         4 2 true).
  { unfold spec.blip. repeat split; try lia.
    intros k Hk. destruct k as [|[|k]]; [reflexivity | reflexivity | lia]. }
  specialize (H 4%nat 2%nat true Hb ltac:(lia) 4%nat ltac:(lia)).
  vm_compute in H. discriminate H.
Qed.

(** C3, as amended: for a debouncer whose counter holds the window, when the
    raw input leaves the stored value [v] for [n] edges, [1 <= n < W], and
    then returns to it, the stable output does not change, unless the change
    finds the debouncer about to load a stored value that differs from the
    output (counter at 0 and output not equal to the stored input).  If the
    output already equals [v] it keeps it for as long as the raw input does;
    otherwise it is held through the blip, the change back and the [W]
    edges after it. *)
Theorem debounce_suppression (cnt_bits W : Z) (s : debouncer.signals)
    (v : bool) (n m : nat) :
  W < 2 ^ cnt_bits ->
  (1 <= n)%nat ->
  Z.of_nat n < W ->
  debouncer.prev_button s = v ->
  debouncer.button_o s = v \/
    (debouncer.debounce_cnt s <> 0 /\ Z.of_nat m <= W + 1) ->
  debouncer.outputs cnt_bits W (repeat (negb v) n ++ repeat v m) s
    = repeat (debouncer.button_o s) (n + m).
Proof.
  intros Hfit0 Hn1 Hn Hp Hpre. destruct s as [c p o].
  cbn [debouncer.prev_button debouncer.button_o debouncer.debounce_cnt]
    in Hp, Hpre |- *. subst p.
  assert (Hfit : 0 <= W < 2 ^ cnt_bits) by lia.
  assert (Hne : negb v <> v) by apply Bool.no_fixpoint_negb.
  assert (Hne' : v <> negb v).
  { intros E. symmetry in E. revert E. apply Bool.no_fixpoint_negb. }
  assert (Hfirst : debouncer.posedge cnt_bits W (negb v) (debouncer.mk c v o)
                   = debouncer.mk W (negb v) o).
  { rewrite posedge_changed by assumption.
    destruct (c =? 0) eqn:E; [|reflexivity].
    apply Z.eqb_eq in E. destruct Hpre as [-> | [Hc _]]; [reflexivity | lia]. }
  destruct n as [|k]; [lia|].
  rewrite outputs_app, repeat_app. f_equal.
  - cbn [repeat debouncer.outputs]. rewrite Hfirst.
    cbn [debouncer.button_o]. f_equal.
    apply (counting_down cnt_bits W Hfit k W (negb v) o). lia.
  - cbn [repeat]. rewrite run_cons, Hfirst.
    destruct (counting_down cnt_bits W Hfit k W (negb v) o ltac:(lia))
      as [Hr _].
    rewrite Hr. destruct m as [|m]; [reflexivity|].
    cbn [repeat debouncer.outputs]. rewrite posedge_changed by assumption.
    destruct (W - Z.of_nat k =? 0) eqn:E; [apply Z.eqb_eq in E; lia|].
    cbn [debouncer.button_o]. f_equal.
    destruct Hpre as [-> | [_ Hm]].
    + apply steady.
    + apply (counting_down cnt_bits W Hfit m W v o). lia.
Qed.

(** Window 3 on the source's 2-bit counter, the counter running at 2 with
    the output (0) still behind the stored input (1): a two-edge blip and
    the four edges after it leave the output at 0. *)
Lemma debounce_suppression_witness :
  3 < 2 ^ debouncer.cnt_width 3 /\
  (1 <= 2)%nat /\ Z.of_nat 2 < 3 /\
  debouncer.prev_button (debouncer.mk 2 true false) = true /\
  (debouncer.button_o (debouncer.mk 2 true false) = true \/
   (debouncer.debounce_cnt (debouncer.mk 2 true false) <> 0 /\
    Z.of_nat 4 <= 3 + 1)) /\
  debouncer.outputs (debouncer.cnt_width 3) 3
    ([false; false] ++ [true; true; true; true]) (debouncer.mk 2 true false)
  = [false; false; false; false; false; false].
Proof.
  assert (H1 : 3 < 2 ^ debouncer.cnt_width 3) by reflexivity.
  assert (H2 : (1 <= 2)%nat) by lia.
  assert (H3 : Z.of_nat 2 < 3) by (simpl; lia).
  assert (H4 : debouncer.button_o (debouncer.mk 2 true false) = true \/
               (debouncer.debounce_cnt (debouncer.mk 2 true false) <> 0 /\
                Z.of_nat 4 <= 3 + 1)).
  { right. split; [discriminate | simpl; lia]. }
  split; [exact H1|]. split; [exact H2|]. split; [exact H3|].
  split; [reflexivity|]. split; [exact H4|].
  exact (debounce_suppression (debouncer.cnt_width 3) 3
           (debouncer.mk 2 true false) true 2 4 H1 H2 H3 eq_refl H4).
Defined.

(** C4 at a window the counter cannot hold.  For [debounce_time = 2^49] the
    source asks for [int(ceil(log2(2^49 + 1)))] bits, which in floating point
    is 49, one short of what the window needs.  The counter is constructed;
    a reload stages [2^49], which wraps to 0; so after the raw input goes
    from 0 to 1 the output follows at step 1, not at step [2^49 + 1]. *)
Theorem debounce_reload_wraps :
  debouncer.construct 49 = Some debouncer.init /\
  hdl.bus_assign 49 (2 ^ 49) = 0 /\
  debouncer.debounce_cnt
    (debouncer.posedge 49 (2 ^ 49) true debouncer.init) = 0 /\
  debouncer.outputs 49 (2 ^ 49) [true; true; true; true] debouncer.init
    = [false; true; true; true].
Proof. vm_compute. repeat split. Qed.

(** C9, as stated, fails: for window 0 the counter is asked to be
    [ceil(log2(1)) = 0] bits wide, the library refuses a bus of width 0, and
    no debouncer is constructed. *)
Lemma zero_window_not_constructed : ~ spec.zero_window_delay.
Proof.
  intros [s0 [Hc _]]. vm_compute in Hc. discriminate Hc.
Qed.

(** C9, as amended: a debouncer with window 0 cannot be constructed, because
    its counter would be a bus of width 0; construction succeeds exactly for
    a positive counter width, and 1 is the smallest window that gives one. *)
Theorem zero_window_refused (cnt_bits : Z) :
  debouncer.cnt_width 0 = 0 /\
  debouncer.construct (debouncer.cnt_width 0) = None /\
  (debouncer.construct cnt_bits = None <-> cnt_bits <= 0) /\
  debouncer.construct (debouncer.cnt_width 1) = Some debouncer.init.
Proof.
  split; [reflexivity|]. split; [reflexivity|]. split; [|reflexivity].
  unfold debouncer.construct, hdl.bus_ok.
  destruct (0 <? cnt_bits) eqn:E.
  - apply Z.ltb_lt in E. split; [discriminate | lia].
  - apply Z.ltb_ge in E. split; [intros _; exact E | reflexivity].
Qed.

(** ** Classic FSM *)

(** Case analysis along the branches of [classic_fsm.next_state_logic]. *)
Ltac fsm_branches :=
  repeat match goal with
         | |- context [if ?c then _ else _] => destruct c eqn:?
         end.

Lemma posedge_fsm_state (i : Z) (s : classic_fsm.signals) :
  classic_fsm.fsm_state (classic_fsm.posedge i s) =
  fst (classic_fsm.next_state_logic (classic_fsm.reset_cnt s)
         (classic_fsm.fsm_state s) (classic_fsm.input_chgs s)).
Proof.
  unfold classic_fsm.posedge, classic_fsm.commit.
  destruct (classic_fsm.next_state_logic _ _ _). reflexivity.
Qed.

Lemma posedge_reset_cnt (i : Z) (s : classic_fsm.signals) :
  classic_fsm.reset_cnt (classic_fsm.posedge i s) =
  snd (classic_fsm.next_state_logic (classic_fsm.reset_cnt s)
         (classic_fsm.fsm_state s) (classic_fsm.input_chgs s)).
Proof.
  unfold classic_fsm.posedge, classic_fsm.commit.
  destruct (classic_fsm.next_state_logic _ _ _). reflexivity.
Qed.

Lemma posedge_outputs_o (i : Z) (s : classic_fsm.signals) :
  classic_fsm.outputs_o (classic_fsm.posedge i s) =
  classic_fsm.output_logic (classic_fsm.fsm_state (classic_fsm.posedge i s)).
Proof. reflexivity. Qed.

Lemma fsm_run_cons (i : Z) (ins : list Z) (s : classic_fsm.signals) :
  classic_fsm.run (i :: ins) s = classic_fsm.run ins (classic_fsm.posedge i s).
Proof. reflexivity. Qed.

Lemma fsm_run_app (ins more : list Z) (s : classic_fsm.signals) :
  classic_fsm.run (ins ++ more) s = classic_fsm.run more (classic_fsm.run ins s).
Proof. apply fold_left_app. Qed.

(** What one edge does to the two registers written by the start-up branch. *)
Lemma next_state_in_lockout (cnt state chgs : Z) :
  classic_fsm.lockout cnt = true ->
  classic_fsm.next_state_logic cnt state chgs =
  (classic_fsm.A, hdl.bus_assign classic_fsm.reset_cnt_width (cnt + 1)).
Proof. intros H. unfold classic_fsm.next_state_logic. now rewrite H. Qed.

Lemma next_state_keeps_cnt (cnt state chgs : Z) :
  classic_fsm.lockout cnt = false ->
  snd (classic_fsm.next_state_logic cnt state chgs) = cnt.
Proof.
  intros H. unfold classic_fsm.next_state_logic. rewrite H.
  fsm_branches; reflexivity.
Qed.

Lemma lockout_spec (cnt : Z) : classic_fsm.lockout cnt = (cnt <? 3).
Proof. reflexivity. Qed.

(** C1: once the lockout has expired, one edge takes a named state to the
    state the transition table gives for the two detected edges, [edge[0]]
    first, and holds it when neither is set; the output is then the code of
    that state.  From A, the edge events fwd, fwd, bck on three successive
    edges give the states B, C, B, and the output code 0010. *)
Theorem fsm_transition_table (n : spec.state_name) (i : Z)
    (s : classic_fsm.signals) :
  classic_fsm.lockout (classic_fsm.reset_cnt s) = false ->
  classic_fsm.fsm_state s = spec.encode n ->
  let e0 := Z.testbit (classic_fsm.input_chgs s) 0 in
  let e1 := Z.testbit (classic_fsm.input_chgs s) 1 in
  let cnt := classic_fsm.reset_cnt s in
  classic_fsm.fsm_state (classic_fsm.posedge i s)
    = spec.encode (spec.table_next n e0 e1) /\
  classic_fsm.outputs_o (classic_fsm.posedge i s)
    = spec.code (spec.table_next n e0 e1) /\
  classic_fsm.drive [classic_fsm.fwd] (classic_fsm.A, cnt)
    = (classic_fsm.B, cnt) /\
  classic_fsm.drive [classic_fsm.fwd; classic_fsm.fwd] (classic_fsm.A, cnt)
    = (classic_fsm.C, cnt) /\
  classic_fsm.drive [classic_fsm.fwd; classic_fsm.fwd; classic_fsm.bck]
    (classic_fsm.A, cnt) = (classic_fsm.B, cnt) /\
  classic_fsm.output_logic
    (fst (classic_fsm.drive
            [classic_fsm.fwd; classic_fsm.fwd; classic_fsm.bck]
            (classic_fsm.A, cnt))) = 2.
Proof.
  intros Hlock Hst e0 e1 cnt.
  assert (Hstep : classic_fsm.fsm_state (classic_fsm.posedge i s)
                  = spec.encode (spec.table_next n e0 e1)).
  { rewrite posedge_fsm_state. unfold classic_fsm.next_state_logic.
    rewrite Hlock, Hst. subst e0 e1.
    destruct n, (Z.testbit (classic_fsm.input_chgs s) 0),
      (Z.testbit (classic_fsm.input_chgs s) 1); reflexivity. }
  split; [exact Hstep|].
  split.
  { rewrite posedge_outputs_o, Hstep.
    destruct (spec.table_next n e0 e1); reflexivity. }
  unfold classic_fsm.drive, classic_fsm.next_state_logic. fold cnt in Hlock.
  cbn [fold_left]. rewrite Hlock. cbn. rewrite Hlock. cbn. rewrite Hlock. cbn.
  repeat split.
Qed.

Lemma fsm_transition_table_witness :
  let s := classic_fsm.run [0; 0; 0] classic_fsm.init in
  classic_fsm.lockout (classic_fsm.reset_cnt s) = false /\
  classic_fsm.fsm_state s = spec.encode spec.sA /\
  classic_fsm.fsm_state (classic_fsm.posedge classic_fsm.fwd s)
    = spec.encode (spec.table_next spec.sA
        (Z.testbit (classic_fsm.input_chgs s) 0)
        (Z.testbit (classic_fsm.input_chgs s) 1)) /\
  classic_fsm.drive [classic_fsm.fwd; classic_fsm.fwd; classic_fsm.bck]
    (classic_fsm.A, classic_fsm.reset_cnt s)
    = (classic_fsm.B, classic_fsm.reset_cnt s).
Proof.
  intros s.
  assert (Hl : classic_fsm.lockout (classic_fsm.reset_cnt s) = false)
    by reflexivity.
  assert (Hs : classic_fsm.fsm_state s = spec.encode spec.sA) by reflexivity.
  destruct (fsm_transition_table spec.sA classic_fsm.fwd s Hl Hs)
    as (H1 & _ & _ & _ & H3 & _).
  split; [exact Hl|]. split; [exact Hs|]. split; [exact H1 | exact H3].
Defined.

(** During the lockout the counter advances by one and the state is A. *)
Lemma lockout_edge (i : Z) (s : classic_fsm.signals) :
  0 <= classic_fsm.reset_cnt s < 3 ->
  classic_fsm.fsm_state (classic_fsm.posedge i s) = classic_fsm.A /\
  classic_fsm.reset_cnt (classic_fsm.posedge i s) = classic_fsm.reset_cnt s + 1.
Proof.
  intros Hc. rewrite posedge_fsm_state, posedge_reset_cnt.
  rewrite next_state_in_lockout
    by (rewrite lockout_spec; apply Z.ltb_lt; lia).
  split; [reflexivity|]. cbn [snd].
  apply bus_assign_small. change (2 ^ classic_fsm.reset_cnt_width) with 4. lia.
Qed.

Lemma lockout_run (ins : list Z) : forall s,
  0 <= classic_fsm.reset_cnt s ->
  classic_fsm.reset_cnt s + Z.of_nat (length ins) <= 3 ->
  classic_fsm.fsm_state s = classic_fsm.A ->
  classic_fsm.fsm_state (classic_fsm.run ins s) = classic_fsm.A /\
  classic_fsm.reset_cnt (classic_fsm.run ins s)
    = classic_fsm.reset_cnt s + Z.of_nat (length ins).
Proof.
  induction ins as [|i ins IH]; intros s H0 Hlen HA.
  - cbn. split; [assumption | lia].
  - rewrite fsm_run_cons. cbn [length] in Hlen |- *.
    destruct (lockout_edge i s ltac:(lia)) as [HA' Hc'].
    destruct (IH (classic_fsm.posedge i s) ltac:(lia) ltac:(lia) HA')
      as [HA'' Hc''].
    split; [assumption | lia].
Qed.

(** C5: whatever the inputs, after each of the first [reset_cnt.max - 1]
    edges the state register holds A and the lockout counter equals the
    number of edges so far. *)
Theorem fsm_startup_lockout (ins : list Z) (k : nat) :
  Z.of_nat k <= hdl.bus_max classic_fsm.reset_cnt_width - 1 ->
  (k <= length ins)%nat ->
  let s := classic_fsm.run (firstn k ins) classic_fsm.init in
  classic_fsm.fsm_state s = classic_fsm.A /\
  classic_fsm.reset_cnt s = Z.of_nat k /\
  classic_fsm.outputs_o s = 1.
Proof.
  intros Hk Hlen s. change (hdl.bus_max classic_fsm.reset_cnt_width - 1) with 3 in Hk.
  assert (Hl : length (firstn k ins) = k) by (apply firstn_length_le; assumption).
  destruct (lockout_run (firstn k ins) classic_fsm.init) as [HA Hc].
  - cbn. lia.
  - rewrite Hl. cbn. lia.
  - reflexivity.
  - fold s in HA, Hc. rewrite Hl in Hc. cbn in Hc.
    split; [assumption|]. split; [assumption|].
    subst s. destruct (firstn k ins) as [|i l] using rev_ind; [reflexivity|].
    rewrite fsm_run_app in HA |- *. cbn [classic_fsm.run fold_left] in HA |- *.
    rewrite posedge_outputs_o, HA. reflexivity.
Qed.

Lemma fsm_startup_lockout_witness :
  Z.of_nat 3 <= hdl.bus_max classic_fsm.reset_cnt_width - 1 /\
  (3 <= length [3; 1; 2; 3])%nat /\
  classic_fsm.fsm_state
    (classic_fsm.run (firstn 3 [3; 1; 2; 3]) classic_fsm.init) = classic_fsm.A /\
  classic_fsm.reset_cnt
    (classic_fsm.run (firstn 3 [3; 1; 2; 3]) classic_fsm.init) = Z.of_nat 3.
Proof.
  assert (H1 : Z.of_nat 3 <= hdl.bus_max classic_fsm.reset_cnt_width - 1)
    by (vm_compute; discriminate).
  assert (H2 : (3 <= length [3; 1; 2; 3])%nat) by (simpl; lia).
  destruct (fsm_startup_lockout [3; 1; 2; 3] 3 H1 H2) as (HA & Hc & _).
  split; [exact H1|]. split; [exact H2|]. split; [exact HA | exact Hc].
Defined.

(** The lockout counter in closed form. *)
Lemma reset_cnt_edge (i : Z) (s : classic_fsm.signals) :
  0 <= classic_fsm.reset_cnt s <= 3 ->
  classic_fsm.reset_cnt (classic_fsm.posedge i s)
    = Z.min (classic_fsm.reset_cnt s + 1) 3.
Proof.
  intros Hc. destruct (Z.eq_dec (classic_fsm.reset_cnt s) 3) as [E | Hne].
  - rewrite posedge_reset_cnt, next_state_keeps_cnt; [lia|].
    rewrite lockout_spec. apply Z.ltb_ge. lia.
  - destruct (lockout_edge i s ltac:(lia)) as [_ H]. lia.
Qed.

Lemma reset_cnt_run (ins : list Z) : forall s,
  0 <= classic_fsm.reset_cnt s <= 3 ->
  classic_fsm.reset_cnt (classic_fsm.run ins s)
    = Z.min (classic_fsm.reset_cnt s + Z.of_nat (length ins)) 3.
Proof.
  induction ins as [|i ins IH]; intros s Hc.
  - cbn. lia.
  - rewrite fsm_run_cons. pose proof (reset_cnt_edge i s Hc) as He.
    rewrite IH by lia. cbn [length]. lia.
Qed.

(** C10: the lockout is one-shot.  After [n] edges the counter equals
    [min n 3]; an edge never decreases it and never takes it above
    [reset_cnt.max - 1]; outside the lockout branch an edge leaves it
    unchanged, so once the guard is false it is false at every later edge. *)
Theorem lockout_one_shot (ins more : list Z) (i : Z) :
  let s := classic_fsm.run ins classic_fsm.init in
  classic_fsm.reset_cnt s = Z.min (Z.of_nat (length ins)) 3 /\
  classic_fsm.reset_cnt s <= classic_fsm.reset_cnt (classic_fsm.posedge i s)
    <= hdl.bus_max classic_fsm.reset_cnt_width - 1 /\
  (classic_fsm.lockout (classic_fsm.reset_cnt s) = false ->
   classic_fsm.reset_cnt (classic_fsm.posedge i s) = classic_fsm.reset_cnt s /\
   classic_fsm.reset_cnt (classic_fsm.run more s) = 3 /\
   classic_fsm.lockout (classic_fsm.reset_cnt (classic_fsm.run more s)) = false).
Proof.
  intros s.
  assert (Hc : classic_fsm.reset_cnt s = Z.min (Z.of_nat (length ins)) 3).
  { subst s. rewrite reset_cnt_run by (cbn; lia). cbn. lia. }
  assert (Hr : 0 <= classic_fsm.reset_cnt s <= 3) by lia.
  split; [exact Hc|]. split.
  - rewrite reset_cnt_edge by assumption.
    change (hdl.bus_max classic_fsm.reset_cnt_width - 1) with 3. lia.
  - intros Hl. rewrite lockout_spec in Hl. apply Z.ltb_ge in Hl.
    assert (Hm : classic_fsm.reset_cnt (classic_fsm.run more s) = 3)
      by (rewrite reset_cnt_run by assumption; lia).
    split; [rewrite reset_cnt_edge by assumption; lia|].
    split; [exact Hm | now rewrite Hm].
Qed.

Lemma lockout_one_shot_witness :
  let s := classic_fsm.run [3; 3; 3] classic_fsm.init in
  classic_fsm.lockout (classic_fsm.reset_cnt s) = false /\
  classic_fsm.reset_cnt (classic_fsm.posedge 1 s) = classic_fsm.reset_cnt s /\
  classic_fsm.lockout
    (classic_fsm.reset_cnt (classic_fsm.run [1; 2; 3] s)) = false.
Proof.
  intros s.
  assert (Hl : classic_fsm.lockout (classic_fsm.reset_cnt s) = false)
    by reflexivity.
  destruct (lockout_one_shot [3; 3; 3] [1; 2; 3] 1) as (_ & _ & H).
  destruct (H Hl) as (H1 & _ & H2).
  split; [exact Hl|]. split; [exact H1 | exact H2].
Defined.

(** Whatever the register held, the staged state carries a name. *)
Lemma next_state_named (cnt state chgs : Z) :
  classic_fsm.named (fst (classic_fsm.next_state_logic cnt state chgs)).
Proof.
  unfold classic_fsm.next_state_logic, classic_fsm.named.
  fsm_branches; cbn [fst];
    repeat match goal with
           | H : (_ =? _) = true |- _ => apply Z.eqb_eq in H
           end; auto.
Qed.

Lemma reachable_named (ins : list Z) :
  classic_fsm.named (classic_fsm.fsm_state (classic_fsm.run ins classic_fsm.init)).
Proof.
  destruct ins as [|i ins] using rev_ind.
  - left. reflexivity.
  - rewrite fsm_run_app. cbn [classic_fsm.run fold_left].
    rewrite posedge_fsm_state. apply next_state_named.
Qed.

Lemma reachable_outputs (ins : list Z) :
  let s := classic_fsm.run ins classic_fsm.init in
  classic_fsm.outputs_o s = classic_fsm.output_logic (classic_fsm.fsm_state s).
Proof.
  destruct ins as [|i ins] using rev_ind.
  - reflexivity.
  - cbv zeta. rewrite fsm_run_app. reflexivity.
Qed.

(** C7: in every state the FSM reaches, the state register holds one of A,
    B, C, D, the output is the code the output block computes from that
    register alone, and the code has exactly one of its four bits set:
    0001 for A, 0010 for B, 0100 for C, 1000 for D. *)
Theorem fsm_output_one_hot (ins : list Z) :
  let s := classic_fsm.run ins classic_fsm.init in
  classic_fsm.named (classic_fsm.fsm_state s) /\
  classic_fsm.outputs_o s = classic_fsm.output_logic (classic_fsm.fsm_state s) /\
  classic_fsm.bits_set 4 (classic_fsm.outputs_o s) = 1%nat /\
  0 <= classic_fsm.outputs_o s < 2 ^ 4 /\
  (classic_fsm.output_logic classic_fsm.A = 1 /\
   classic_fsm.output_logic classic_fsm.B = 2 /\
   classic_fsm.output_logic classic_fsm.C = 4 /\
   classic_fsm.output_logic classic_fsm.D = 8).
Proof.
  intros s. pose proof (reachable_named ins) as Hn.
  pose proof (reachable_outputs ins) as Ho. cbv zeta in Ho. fold s in Hn, Ho.
  split; [exact Hn|]. split; [exact Ho|]. rewrite Ho.
  split; [|split].
  - destruct Hn as [E | [E | [E | E]]]; rewrite E; reflexivity.
  - destruct Hn as [E | [E | [E | E]]]; rewrite E; cbn; lia.
  - repeat split.
Qed.

(** C8: a state register that holds none of A, B, C, D makes the output
    block emit 1111, and the next edge stages A, inside the lockout or
    not. *)
Theorem fsm_unrecognized_state (i : Z) (s : classic_fsm.signals) :
  ~ classic_fsm.named (classic_fsm.fsm_state s) ->
  classic_fsm.output_logic (classic_fsm.fsm_state s) = 15 /\
  classic_fsm.outputs_o (classic_fsm.settle s) = 15 /\
  (forall cnt chgs,
     fst (classic_fsm.next_state_logic cnt (classic_fsm.fsm_state s) chgs)
     = classic_fsm.A) /\
  classic_fsm.fsm_state (classic_fsm.posedge i s) = classic_fsm.A /\
  classic_fsm.outputs_o (classic_fsm.posedge i s) = 1.
Proof.
  intros Hn. unfold classic_fsm.named in Hn.
  assert (HA : (classic_fsm.fsm_state s =? classic_fsm.A) = false)
    by (apply Z.eqb_neq; tauto).
  assert (HB : (classic_fsm.fsm_state s =? classic_fsm.B) = false)
    by (apply Z.eqb_neq; tauto).
  assert (HC : (classic_fsm.fsm_state s =? classic_fsm.C) = false)
    by (apply Z.eqb_neq; tauto).
  assert (HD : (classic_fsm.fsm_state s =? classic_fsm.D) = false)
    by (apply Z.eqb_neq; tauto).
  assert (Hout : classic_fsm.output_logic (classic_fsm.fsm_state s) = 15).
  { unfold classic_fsm.output_logic. now rewrite HA, HB, HC, HD. }
  assert (Hnext : forall cnt chgs,
    fst (classic_fsm.next_state_logic cnt (classic_fsm.fsm_state s) chgs)
    = classic_fsm.A).
  { intros cnt chgs. unfold classic_fsm.next_state_logic.
    rewrite HA, HB, HC, HD. now destruct (classic_fsm.lockout cnt). }
  split; [exact Hout|]. split; [exact Hout|]. split; [exact Hnext|].
  assert (Hst : classic_fsm.fsm_state (classic_fsm.posedge i s) = classic_fsm.A)
    by (rewrite posedge_fsm_state; apply Hnext).
  split; [exact Hst|]. rewrite posedge_outputs_o, Hst. reflexivity.
Qed.

Lemma fsm_unrecognized_state_witness :
  let s := classic_fsm.mk 7 3 0 debouncer.init debouncer.init 0 0 0 in
  ~ classic_fsm.named (classic_fsm.fsm_state s) /\
  classic_fsm.outputs_o (classic_fsm.settle s) = 15 /\
  classic_fsm.fsm_state (classic_fsm.posedge classic_fsm.fwd s) = classic_fsm.A.
Proof.
  intros s.
  assert (Hn : ~ classic_fsm.named (classic_fsm.fsm_state s)).
  { unfold classic_fsm.named. cbn. intros [E | [E | [E | E]]]; discriminate E. }
  destruct (fsm_unrecognized_state classic_fsm.fwd s Hn) as (_ & Ho & _ & Hs & _).
  split; [exact Hn|]. split; [exact Ho | exact Hs].
Defined.

(** * Further properties of the circuits and their test benches *)

(** ** Free-running counter *)

Lemma bus_assign_range (width v : Z) :
  0 <= width -> 0 <= hdl.bus_assign width v < 2 ^ width.
Proof.
  intros Hw. unfold hdl.bus_assign, hdl.bus_max.
  apply Z.mod_pos_bound. apply Z.pow_pos_nonneg; lia.
Qed.

Lemma clk_sim_closed (width : Z) (n : nat) : forall cnt,
  0 <= cnt < 2 ^ width ->
  counter.clk_sim width n cnt = (cnt + Z.of_nat n) mod 2 ^ width.
Proof.
  induction n as [|n IH]; intros cnt Hc.
  - cbn [counter.clk_sim]. rewrite Z.add_0_r. symmetry. now apply Z.mod_small.
  - cbn [counter.clk_sim]. unfold counter.posedge, counter.next_state_logic.
    assert (Hw : 0 <= width).
    { destruct (Z.le_gt_cases 0 width) as [H | H]; [exact H|].
      rewrite Z.pow_neg_r in Hc by exact H. lia. }
    rewrite IH by (apply bus_assign_range; exact Hw).
    unfold hdl.bus_assign, hdl.bus_max.
    rewrite Zplus_mod_idemp_l. f_equal. lia.
Qed.

(** X1: the free-running counter, started from a count within its bus, holds
    after [n] edges that count plus [n] modulo [2^width]; so it wraps from
    [2^width - 1] to 0 and repeats with period [2^width]. *)
Theorem counter_counts_edges (width cnt : Z) (n : nat) :
  0 <= cnt < 2 ^ width ->
  counter.clk_sim width n cnt = (cnt + Z.of_nat n) mod 2 ^ width /\
  counter.output_logic (counter.clk_sim width n cnt) < 2 ^ width /\
  counter.clk_sim width (Z.to_nat (2 ^ width) + n) cnt
    = counter.clk_sim width n cnt.
Proof.
  intros Hc. rewrite !clk_sim_closed by exact Hc.
  assert (Hpos : 0 < 2 ^ width) by lia.
  split; [reflexivity|]. split.
  - unfold counter.output_logic. apply Z.mod_pos_bound. exact Hpos.
  - rewrite Nat2Z.inj_add, Z2Nat.id by lia.
    replace (cnt + (2 ^ width + Z.of_nat n))
      with (cnt + Z.of_nat n + 1 * 2 ^ width) by lia.
    apply Z.mod_add. lia.
Qed.

(** The source's own run: a 3-bit counter simulated for 10 cycles ends at 2,
    having wrapped once. *)
Lemma counter_counts_edges_witness :
  0 <= 0 < 2 ^ 3 /\
  counter.clk_sim 3 10 0 = (0 + Z.of_nat 10) mod 2 ^ 3 /\
  counter.clk_sim 3 10 0 = 2.
Proof.
  split; [lia|].
  destruct (counter_counts_edges 3 0 10 ltac:(lia)) as (H & _ & _).
  split; [exact H | reflexivity].
Defined.

(** ** Counter with enable and reset, over a whole stimulus *)

Lemma en_rst_run_cons (width : Z) (rst en : bool) stim cnt :
  counter_en_rst.run width ((rst, en) :: stim) cnt =
  counter_en_rst.run width stim (counter_en_rst.posedge width rst en cnt).
Proof. reflexivity. Qed.

Lemma en_rst_run_app (width : Z) (stim1 stim2 : list (bool * bool)) cnt :
  counter_en_rst.run width (stim1 ++ stim2) cnt =
  counter_en_rst.run width stim2 (counter_en_rst.run width stim1 cnt).
Proof. apply fold_left_app. Qed.

Lemma en_rst_range (width : Z) (stim : list (bool * bool)) : forall cnt,
  0 <= cnt < 2 ^ width ->
  0 <= counter_en_rst.run width stim cnt < 2 ^ width.
Proof.
  induction stim as [|[rst en] stim IH]; intros cnt Hc; [exact Hc|].
  rewrite en_rst_run_cons. apply IH.
  assert (Hw : 0 <= width).
  { destruct (Z.le_gt_cases 0 width) as [H | H]; [exact H|].
    rewrite Z.pow_neg_r in Hc by exact H. lia. }
  unfold counter_en_rst.posedge, counter_en_rst.next_state_logic.
  destruct rst, en; cbn [Bool.eqb]; try apply bus_assign_range; assumption.
Qed.

Lemma enabled_edges_cons (rst en : bool) stim :
  reference.enabled_edges ((rst, en) :: stim) =
  (if en then 1 else 0) + reference.enabled_edges stim.
Proof.
  unfold reference.enabled_edges. cbn [filter snd].
  destruct en; cbn [length]; lia.
Qed.

Lemma en_rst_no_reset (width : Z) (stim : list (bool * bool)) : forall cnt,
  reference.no_reset stim ->
  0 <= cnt < 2 ^ width ->
  counter_en_rst.run width stim cnt
    = (cnt + reference.enabled_edges stim) mod 2 ^ width.
Proof.
  induction stim as [|[rst en] stim IH]; intros cnt Hnr Hc.
  - cbn. rewrite Z.add_0_r. symmetry. now apply Z.mod_small.
  - inversion Hnr as [|x l Hx Hl]; subst. cbn [fst] in Hx. subst rst.
    rewrite en_rst_run_cons, enabled_edges_cons.
    assert (Hr := en_rst_range width [(false, en)] cnt Hc).
    cbn [counter_en_rst.run fold_left] in Hr.
    rewrite IH by assumption.
    unfold counter_en_rst.posedge, counter_en_rst.next_state_logic.
    destruct en; cbn [Bool.eqb].
    + unfold hdl.bus_assign, hdl.bus_max. rewrite Zplus_mod_idemp_l.
      f_equal. lia.
    + f_equal.
Qed.

(** X2: over any stimulus the count stays within its bus, and while reset
    is never set the counter holds its start value plus the number of
    enabled edges, modulo [2^width]: disabled edges leave it alone. *)
Theorem counter_en_rst_counts_enabled (width cnt : Z)
    (stim quiet : list (bool * bool)) :
  0 <= cnt < 2 ^ width ->
  reference.no_reset quiet ->
  0 <= counter_en_rst.run width stim cnt < 2 ^ width /\
  counter_en_rst.run width quiet cnt
    = (cnt + reference.enabled_edges quiet) mod 2 ^ width.
Proof.
  intros Hc Hq. split; [now apply en_rst_range | now apply en_rst_no_reset].
Qed.

(** The first eight edges of [cntr_tb]: four enabled, two disabled, two
    enabled; the 3-bit counter ends at 6. *)
Lemma counter_en_rst_counts_enabled_witness :
  0 <= 0 < 2 ^ 3 /\
  reference.no_reset (firstn 8 testbench.cntr_tb) /\
  counter_en_rst.run 3 (firstn 8 testbench.cntr_tb) 0 = 6.
Proof.
  assert (Hq : reference.no_reset (firstn 8 testbench.cntr_tb))
    by (repeat constructor).
  split; [lia|]. split; [exact Hq|].
  destruct (counter_en_rst_counts_enabled 3 0 testbench.cntr_tb
              (firstn 8 testbench.cntr_tb) ltac:(lia) Hq) as [_ H].
  exact H.
Defined.

(** X3: a reset edge erases the past: whatever came before it and whatever
    enable was at that edge, the count afterwards is the number of enabled
    edges since the reset, modulo [2^width]. *)
Theorem counter_en_rst_reset_erases (width cnt : Z) (en : bool)
    (before after : list (bool * bool)) :
  0 <= width ->
  reference.no_reset after ->
  counter_en_rst.run width (before ++ (true, en) :: after) cnt
    = reference.enabled_edges after mod 2 ^ width.
Proof.
  intros Hw Hnr. rewrite en_rst_run_app, en_rst_run_cons.
  unfold counter_en_rst.posedge, counter_en_rst.next_state_logic.
  cbn [Bool.eqb]. rewrite bus_assign_zero.
  rewrite en_rst_no_reset; [reflexivity | assumption |].
  split; [lia | apply Z.pow_pos_nonneg; lia].
Qed.

(** All of [cntr_tb]: eight edges, the reset edge (with enable still set),
    then four enabled edges; the 3-bit counter ends at 4. *)
Lemma counter_en_rst_reset_erases_witness :
  0 <= 3 /\
  reference.no_reset (repeat (false, true) 4) /\
  testbench.cntr_tb
    = firstn 8 testbench.cntr_tb ++ (true, true) :: repeat (false, true) 4 /\
  counter_en_rst.run 3 testbench.cntr_tb 0 = 4.
Proof.
  assert (Hq : reference.no_reset (repeat (false, true) 4))
    by (repeat constructor).
  split; [lia|]. split; [exact Hq|]. split; [reflexivity|].
  exact (counter_en_rst_reset_erases 3 0 true (firstn 8 testbench.cntr_tb)
           (repeat (false, true) 4) ltac:(lia) Hq).
Defined.

(** ** Debouncer: what an output change implies, and the exact threshold *)

(** When stored input and output differ, the stored value has been sampled
    on every edge since the counter was last reset. *)
Lemma pending_history (cnt_bits W : Z) (pre : list bool) :
  0 <= W < 2 ^ cnt_bits ->
  let s := debouncer.run cnt_bits W pre debouncer.init in
  0 <= debouncer.debounce_cnt s <= W /\
  (debouncer.prev_button s = debouncer.button_o s \/
   exists pre',
     pre = pre' ++ repeat (debouncer.prev_button s)
                     (Z.to_nat (W - debouncer.debounce_cnt s) + 1)).
Proof.
  intros HW. induction pre as [|b pre IH] using rev_ind.
  - cbn. split; [lia | left; reflexivity].
  - cbv zeta in IH |- *. rewrite run_app. cbn [debouncer.run fold_left].
    fold (debouncer.run cnt_bits W pre debouncer.init).
    destruct (debouncer.run cnt_bits W pre debouncer.init) as [c p o].
    cbn [debouncer.debounce_cnt debouncer.prev_button debouncer.button_o] in IH.
    destruct IH as [Hc Hh].
    destruct (Bool.bool_dec b p) as [-> | Hne].
    + destruct (Z.eq_dec c 0) as [-> | Hc0].
      * rewrite posedge_idle. cbn. split; [lia | left; reflexivity].
      * rewrite posedge_counting by lia.
        cbn [debouncer.debounce_cnt debouncer.prev_button debouncer.button_o].
        split; [lia|]. destruct Hh as [E | [pre' E]]; [left; exact E|].
        right. exists pre'. rewrite E, <- app_assoc. f_equal.
        replace (Z.to_nat (W - (c - 1)) + 1)%nat
          with ((Z.to_nat (W - c) + 1) + 1)%nat by lia.
        rewrite (repeat_app p (Z.to_nat (W - c) + 1) 1). reflexivity.
    + rewrite posedge_changed by assumption.
      cbn [debouncer.debounce_cnt debouncer.prev_button debouncer.button_o].
      split; [lia|]. right. exists pre.
      replace (Z.to_nat (W - W) + 1)%nat with 1%nat by lia. reflexivity.
Qed.

(** X4: the output never follows a value that was not stable.  For a
    debouncer whose counter holds the window, whenever an edge changes the
    stable output, the [W + 1] samples before that edge all had the value
    the output changes to. *)
Theorem debounce_change_is_earned (cnt_bits W : Z) (pre : list bool)
    (b : bool) :
  1 <= W < 2 ^ cnt_bits ->
  let s := debouncer.run cnt_bits W pre debouncer.init in
  debouncer.button_o (debouncer.posedge cnt_bits W b s)
    <> debouncer.button_o s ->
  exists pre',
    pre = pre' ++ repeat (debouncer.button_o (debouncer.posedge cnt_bits W b s))
                    (Z.to_nat W + 1).
Proof.
  intros HW s Hch.
  destruct (pending_history cnt_bits W pre ltac:(lia)) as [Hc Hh].
  fold s in Hc, Hh.
  change (debouncer.button_o (debouncer.posedge cnt_bits W b s))
    with (if debouncer.debounce_cnt s =? 0
          then debouncer.prev_button s else debouncer.button_o s) in Hch |- *.
  destruct (debouncer.debounce_cnt s =? 0) eqn:E; [|contradiction].
  apply Z.eqb_eq in E. rewrite E in Hh.
  destruct Hh as [Heq | [pre' Hp]]; [contradiction|].
  exists pre'. rewrite Z.sub_0_r in Hp. exact Hp.
Qed.

(** In [debounce_tb] (window 3, 2-bit counter) the output first rises at the
    fifth edge, after the four samples of 1 that open the test bench. *)
Lemma debounce_change_is_earned_witness :
  1 <= 3 < 2 ^ debouncer.cnt_width 3 /\
  debouncer.button_o
    (debouncer.posedge (debouncer.cnt_width 3) 3 false
       (debouncer.run (debouncer.cnt_width 3) 3
          (firstn 4 testbench.debounce_tb) debouncer.init))
  <> debouncer.button_o
       (debouncer.run (debouncer.cnt_width 3) 3
          (firstn 4 testbench.debounce_tb) debouncer.init) /\
  exists pre',
    firstn 4 testbench.debounce_tb = pre' ++ repeat true (Z.to_nat 3 + 1).
Proof.
  assert (H : 1 <= 3 < 2 ^ debouncer.cnt_width 3)
    by (vm_compute; split; congruence).
  assert (Hch : debouncer.button_o
    (debouncer.posedge (debouncer.cnt_width 3) 3 false
       (debouncer.run (debouncer.cnt_width 3) 3
          (firstn 4 testbench.debounce_tb) debouncer.init))
    <> debouncer.button_o
       (debouncer.run (debouncer.cnt_width 3) 3
          (firstn 4 testbench.debounce_tb) debouncer.init))
    by (vm_compute; discriminate).
  split; [exact H|]. split; [exact Hch|].
  exact (debounce_change_is_earned (debouncer.cnt_width 3) 3
           (firstn 4 testbench.debounce_tb) false H Hch).
Defined.

(** X5: the threshold is exact.  For a debouncer whose counter holds the
    window, with stored input and output both at [v], up to [W] consecutive
    samples of the other value leave the output at [v], during them and
    after the raw input is back; [W + 1] such samples switch the output at
    the next edge, whatever that edge samples. *)
Theorem debounce_threshold (cnt_bits W : Z) (s : debouncer.signals)
    (v b : bool) (n m : nat) :
  1 <= W < 2 ^ cnt_bits ->
  Z.of_nat n <= W ->
  debouncer.prev_button s = v ->
  debouncer.button_o s = v ->
  debouncer.outputs cnt_bits W (repeat (negb v) n ++ repeat v m) s
    = repeat v (n + m) /\
  debouncer.outputs cnt_bits W (repeat (negb v) (Z.to_nat W + 1) ++ [b]) s
    = repeat v (Z.to_nat W + 1) ++ [negb v].
Proof.
  intros HW1 Hn Hp Ho. destruct s as [c p o]. simpl in Hp, Ho. subst p o.
  assert (HW : 0 <= W < 2 ^ cnt_bits) by lia.
  assert (Hne : negb v <> v) by apply Bool.no_fixpoint_negb.
  assert (Hne' : v <> negb v).
  { intros E. symmetry in E. revert E. apply Bool.no_fixpoint_negb. }
  assert (Hfirst : debouncer.posedge cnt_bits W (negb v) (debouncer.mk c v v)
                   = debouncer.mk W (negb v) v).
  { rewrite posedge_changed by assumption. now destruct (c =? 0). }
  split.
  - destruct n as [|k]; [apply steady|].
    rewrite outputs_app, repeat_app. f_equal.
    + cbn [repeat debouncer.outputs]. rewrite Hfirst.
      cbn [debouncer.button_o]. f_equal.
      apply (counting_down cnt_bits W HW k W (negb v) v). lia.
    + cbn [repeat]. rewrite run_cons, Hfirst.
      destruct (counting_down cnt_bits W HW k W (negb v) v ltac:(lia))
        as [Hr _].
      rewrite Hr. destruct m as [|m]; [reflexivity|].
      cbn [repeat debouncer.outputs]. rewrite posedge_changed by assumption.
      destruct (W - Z.of_nat k =? 0) eqn:E; [apply Z.eqb_eq in E; lia|].
      cbn [debouncer.button_o]. f_equal. apply steady.
  - rewrite outputs_app. f_equal.
    + replace (Z.to_nat W + 1)%nat with (S (Z.to_nat W)) by lia.
      cbn [repeat debouncer.outputs]. rewrite Hfirst.
      cbn [debouncer.button_o]. f_equal.
      apply (counting_down cnt_bits W HW (Z.to_nat W) W (negb v) v). lia.
    + replace (Z.to_nat W + 1)%nat with (S (Z.to_nat W)) by lia.
      cbn [repeat]. rewrite run_cons, Hfirst.
      destruct (counting_down cnt_bits W HW (Z.to_nat W) W (negb v) v
                  ltac:(lia)) as [Hr _].
      rewrite Hr. replace (W - Z.of_nat (Z.to_nat W)) with 0 by lia.
      reflexivity.
Qed.

(** Window 3 on the 2-bit counter: a blip of three samples is not seen, one
    of four is. *)
Lemma debounce_threshold_witness :
  1 <= 3 < 2 ^ debouncer.cnt_width 3 /\ Z.of_nat 3 <= 3 /\
  debouncer.outputs (debouncer.cnt_width 3) 3
    ([false; false; false] ++ [true; true])
    (debouncer.mk 0 true true) = [true; true; true; true; true] /\
  debouncer.outputs (debouncer.cnt_width 3) 3
    ([false; false; false; false] ++ [true])
    (debouncer.mk 0 true true) = [true; true; true; true; false].
Proof.
  assert (H : 1 <= 3 < 2 ^ debouncer.cnt_width 3)
    by (vm_compute; split; congruence).
  split; [exact H|]. split; [simpl; lia|].
  exact (debounce_threshold (debouncer.cnt_width 3) 3
           (debouncer.mk 0 true true) true true 3 2
           H ltac:(simpl; lia) eq_refl eq_refl).
Defined.

(** After [n] edges from construction, either nothing but 0 was stored or
    the counter is still within [n - 1] of the window. *)
Lemma quiet_invariant (cnt_bits W : Z) (raw : list bool) :
  0 <= W < 2 ^ cnt_bits ->
  Z.of_nat (length raw) <= W + 1 ->
  let s := debouncer.run cnt_bits W raw debouncer.init in
  debouncer.button_o s = false /\
  0 <= debouncer.debounce_cnt s <= W /\
  (debouncer.prev_button s = false \/
   W - Z.of_nat (length raw) + 1 <= debouncer.debounce_cnt s).
Proof.
  intros HW. induction raw as [|b raw IH] using rev_ind; intros Hlen.
  - cbn. split; [reflexivity|]. split; [lia | left; reflexivity].
  - rewrite length_app in Hlen |- *. cbn [length] in Hlen |- *.
    cbv zeta in IH |- *. rewrite run_app. cbn [debouncer.run fold_left].
    fold (debouncer.run cnt_bits W raw debouncer.init).
    destruct (debouncer.run cnt_bits W raw debouncer.init) as [c p o].
    cbn [debouncer.debounce_cnt debouncer.prev_button debouncer.button_o] in IH.
    destruct (IH ltac:(lia)) as (Ho & Hc & Hp). subst o.
    destruct (Bool.bool_dec b p) as [-> | Hne].
    + destruct (Z.eq_dec c 0) as [-> | Hc0].
      * rewrite posedge_idle. cbn.
        destruct Hp as [-> | Hp]; [|lia].
        split; [reflexivity|]. split; [lia | left; reflexivity].
      * rewrite posedge_counting by lia. cbn.
        split; [reflexivity|]. split; [lia|].
        destruct Hp as [Hp | Hp]; [left; exact Hp | right; lia].
    + rewrite posedge_changed by assumption. cbn.
      split; [|split; [lia | right; lia]].
      destruct (c =? 0) eqn:E; [|reflexivity].
      apply Z.eqb_eq in E. destruct Hp as [Hp | Hp]; [exact Hp | lia].
Qed.

(** X6: for a debouncer whose counter holds the window, from construction
    the stable output is 0 after each of the first [W + 1] edges, whatever
    the raw input does. *)
Theorem debounce_quiet_start (cnt_bits W : Z) (raw : list bool) :
  1 <= W < 2 ^ cnt_bits ->
  Z.of_nat (length raw) <= W + 1 ->
  debouncer.button_o (debouncer.run cnt_bits W raw debouncer.init) = false.
Proof.
  intros HW Hlen. now apply (quiet_invariant cnt_bits W raw ltac:(lia) Hlen).
Qed.

Lemma debounce_quiet_start_witness :
  1 <= 3 < 2 ^ debouncer.cnt_width 3 /\
  Z.of_nat (length [true; true; true; true]) <= 3 + 1 /\
  debouncer.button_o
    (debouncer.run (debouncer.cnt_width 3) 3 [true; true; true; true]
       debouncer.init) = false.
Proof.
  assert (H : 1 <= 3 < 2 ^ debouncer.cnt_width 3)
    by (vm_compute; split; congruence).
  split; [exact H|]. split; [simpl; lia|].
  exact (debounce_quiet_start (debouncer.cnt_width 3) 3
           [true; true; true; true] H ltac:(simpl; lia)).
Defined.

(** ** Classic FSM: debouncers, edge detection, and whole runs *)

Lemma posedge_dbnc0 (i : Z) (s : classic_fsm.signals) :
  classic_fsm.dbnc0 (classic_fsm.posedge i s) =
  debouncer.posedge classic_fsm.dbnc_cnt_bits classic_fsm.debounce_time
    (Z.testbit i 0) (classic_fsm.dbnc0 s).
Proof.
  unfold classic_fsm.posedge, classic_fsm.commit.
  destruct (classic_fsm.next_state_logic _ _ _). reflexivity.
Qed.

Lemma posedge_dbnc1 (i : Z) (s : classic_fsm.signals) :
  classic_fsm.dbnc1 (classic_fsm.posedge i s) =
  debouncer.posedge classic_fsm.dbnc_cnt_bits classic_fsm.debounce_time
    (Z.testbit i 1) (classic_fsm.dbnc1 s).
Proof.
  unfold classic_fsm.posedge, classic_fsm.commit.
  destruct (classic_fsm.next_state_logic _ _ _). reflexivity.
Qed.

Lemma posedge_prev_inputs (i : Z) (s : classic_fsm.signals) :
  classic_fsm.prev_inputs (classic_fsm.posedge i s) =
  hdl.bus_assign classic_fsm.inputs_width (classic_fsm.dbnc_inputs s).
Proof.
  unfold classic_fsm.posedge, classic_fsm.commit.
  destruct (classic_fsm.next_state_logic _ _ _). reflexivity.
Qed.

Lemma run_dbnc0 (ins : list Z) : forall s,
  classic_fsm.dbnc0 (classic_fsm.run ins s) =
  debouncer.run classic_fsm.dbnc_cnt_bits classic_fsm.debounce_time
    (reference.bit_trace 0 ins) (classic_fsm.dbnc0 s).
Proof.
  induction ins as [|i ins IH]; intros s; [reflexivity|].
  rewrite fsm_run_cons, IH, posedge_dbnc0. reflexivity.
Qed.

Lemma run_dbnc1 (ins : list Z) : forall s,
  classic_fsm.dbnc1 (classic_fsm.run ins s) =
  debouncer.run classic_fsm.dbnc_cnt_bits classic_fsm.debounce_time
    (reference.bit_trace 1 ins) (classic_fsm.dbnc1 s).
Proof.
  induction ins as [|i ins IH]; intros s; [reflexivity|].
  rewrite fsm_run_cons, IH, posedge_dbnc1. reflexivity.
Qed.

(** Every state of a run has its combinational signals up to date. *)
Lemma run_settled (ins : list Z) :
  classic_fsm.run ins classic_fsm.init
  = classic_fsm.settle (classic_fsm.run ins classic_fsm.init).
Proof.
  destruct ins as [|i ins] using rev_ind; [reflexivity|].
  rewrite fsm_run_app. reflexivity.
Qed.

Lemma run_dbnc_inputs (ins : list Z) :
  let s := classic_fsm.run ins classic_fsm.init in
  classic_fsm.dbnc_inputs s =
  classic_fsm.join_wires (debouncer.button_o (classic_fsm.dbnc0 s))
                         (debouncer.button_o (classic_fsm.dbnc1 s)).
Proof. cbv zeta. rewrite (run_settled ins) at 1. reflexivity. Qed.

Lemma run_input_chgs (ins : list Z) :
  let s := classic_fsm.run ins classic_fsm.init in
  classic_fsm.input_chgs s =
  classic_fsm.detect_chg (classic_fsm.dbnc_inputs s) (classic_fsm.prev_inputs s).
Proof. cbv zeta. rewrite (run_settled ins) at 1 2. reflexivity. Qed.

(** Bits of the edge detector and of the assembled bus. *)
Lemma detect_chg_bits (dbnc prev k : Z) :
  Z.testbit (classic_fsm.detect_chg dbnc prev) k =
  if (0 <=? k) && (k <? 2)
  then Z.testbit dbnc k && negb (Z.testbit prev k) else false.
Proof.
  unfold classic_fsm.detect_chg, hdl.bus_assign, hdl.bus_max, hdl.bus_invert,
    classic_fsm.inputs_width.
  destruct (0 <=? k) eqn:E0; cbn [andb].
  - apply Z.leb_le in E0. destruct (k <? 2) eqn:E2.
    + apply Z.ltb_lt in E2.
      rewrite Z.mod_pow2_bits_low by lia.
      rewrite !Z.land_spec, Z.lnot_spec by lia.
      rewrite Z.ones_spec_low by lia. now rewrite Bool.andb_true_r.
    + apply Z.ltb_ge in E2. apply Z.mod_pow2_bits_high. lia.
  - apply Z.leb_gt in E0. apply Z.testbit_neg_r. exact E0.
Qed.

Lemma join_wires_bits (w0 w1 : bool) :
  Z.testbit (classic_fsm.join_wires w0 w1) 0 = w0 /\
  Z.testbit (classic_fsm.join_wires w0 w1) 1 = w1 /\
  hdl.bus_assign classic_fsm.inputs_width (classic_fsm.join_wires w0 w1)
    = classic_fsm.join_wires w0 w1.
Proof. destruct w0, w1; repeat split. Qed.

(** X8: edge detection.  After any edge of a run, bit [k] of [input_chgs]
    is set exactly when the stable output of debouncer [k] is 1 and was 0
    before that edge; no other bit is ever set. *)
Theorem fsm_input_chgs_rising (ins : list Z) (i : Z) :
  let s := classic_fsm.run ins classic_fsm.init in
  let s' := classic_fsm.posedge i s in
  Z.testbit (classic_fsm.input_chgs s') 0 =
    debouncer.button_o (classic_fsm.dbnc0 s')
    && negb (debouncer.button_o (classic_fsm.dbnc0 s)) /\
  Z.testbit (classic_fsm.input_chgs s') 1 =
    debouncer.button_o (classic_fsm.dbnc1 s')
    && negb (debouncer.button_o (classic_fsm.dbnc1 s)) /\
  0 <= classic_fsm.input_chgs s' < 4.
Proof.
  intros s s'.
  assert (Hc : classic_fsm.input_chgs s' =
    classic_fsm.detect_chg
      (classic_fsm.join_wires (debouncer.button_o (classic_fsm.dbnc0 s'))
                              (debouncer.button_o (classic_fsm.dbnc1 s')))
      (hdl.bus_assign classic_fsm.inputs_width
         (classic_fsm.join_wires (debouncer.button_o (classic_fsm.dbnc0 s))
                                 (debouncer.button_o (classic_fsm.dbnc1 s))))).
  { pose proof (run_dbnc_inputs ins) as Hd. cbv zeta in Hd. fold s in Hd.
    rewrite <- Hd, <- (posedge_prev_inputs i s). reflexivity. }
  rewrite Hc.
  destruct (debouncer.button_o (classic_fsm.dbnc0 s')),
    (debouncer.button_o (classic_fsm.dbnc1 s')),
    (debouncer.button_o (classic_fsm.dbnc0 s)),
    (debouncer.button_o (classic_fsm.dbnc1 s)); cbn; repeat split; lia.
Qed.

(** X9: an edge event lasts one cycle.  A bit of [input_chgs] that is set
    in a state of a run is clear after the next edge, so an input that stays
    high is seen by the transition logic once. *)
Theorem fsm_input_chgs_one_cycle (ins : list Z) (i k : Z) :
  let s := classic_fsm.run ins classic_fsm.init in
  Z.testbit (classic_fsm.input_chgs s) k = true ->
  Z.testbit (classic_fsm.input_chgs (classic_fsm.posedge i s)) k = false.
Proof.
  intros s Hk.
  pose proof (run_input_chgs ins) as Hc. cbv zeta in Hc. fold s in Hc.
  pose proof (run_input_chgs (ins ++ [i])) as Hc'. cbv zeta in Hc'.
  rewrite fsm_run_app in Hc'. cbn [classic_fsm.run fold_left] in Hc'.
  fold (classic_fsm.run ins classic_fsm.init) in Hc'. fold s in Hc'.
  rewrite Hc, detect_chg_bits in Hk.
  rewrite Hc', detect_chg_bits, posedge_prev_inputs.
  destruct ((0 <=? k) && (k <? 2)) eqn:E; [|reflexivity].
  apply Bool.andb_true_iff in E. destruct E as [E0 E2].
  apply Z.leb_le in E0. apply Z.ltb_lt in E2.
  apply Bool.andb_true_iff in Hk. destruct Hk as [Hd _].
  unfold hdl.bus_assign, hdl.bus_max, classic_fsm.inputs_width.
  rewrite Z.mod_pow2_bits_low by lia. rewrite Hd.
  apply Bool.andb_false_r.
Qed.

(** Holding forward from construction: after 120002 edges the edge event
    for bit 0 is up, and it is down again one edge later. *)
Lemma fsm_input_chgs_one_cycle_witness :
  let s := classic_fsm.run (repeat classic_fsm.fwd (Z.to_nat 120002))
             classic_fsm.init in
  Z.testbit (classic_fsm.input_chgs s) 0 = true /\
  Z.testbit (classic_fsm.input_chgs (classic_fsm.posedge classic_fsm.fwd s)) 0
    = false.
Proof.
  intros s.
  assert (H : Z.testbit (classic_fsm.input_chgs s) 0 = true)
    by (vm_compute; reflexivity).
  split; [exact H|].
  exact (fsm_input_chgs_one_cycle
           (repeat classic_fsm.fwd (Z.to_nat 120002)) classic_fsm.fwd 0 H).
Defined.

(** During the lockout the state register holds A. *)
Lemma lockout_state_A (ins : list Z) :
  let s := classic_fsm.run ins classic_fsm.init in
  classic_fsm.lockout (classic_fsm.reset_cnt s) = true ->
  classic_fsm.fsm_state s = classic_fsm.A.
Proof.
  destruct ins as [|i ins] using rev_ind; [reflexivity|].
  cbv zeta. rewrite fsm_run_app. cbn [classic_fsm.run fold_left].
  fold (classic_fsm.run ins classic_fsm.init).
  rewrite posedge_fsm_state, posedge_reset_cnt.
  destruct (classic_fsm.lockout
              (classic_fsm.reset_cnt (classic_fsm.run ins classic_fsm.init)))
    eqn:E.
  - rewrite next_state_in_lockout by exact E. reflexivity.
  - rewrite next_state_keeps_cnt by exact E. rewrite E. discriminate.
Qed.

(** X10: without an edge event the state is held, in every state of a run,
    the start-up lockout included; the output code stays as well. *)
Theorem fsm_holds_without_event (ins : list Z) (i : Z) :
  let s := classic_fsm.run ins classic_fsm.init in
  classic_fsm.input_chgs s = 0 ->
  classic_fsm.fsm_state (classic_fsm.posedge i s) = classic_fsm.fsm_state s /\
  classic_fsm.outputs_o (classic_fsm.posedge i s) = classic_fsm.outputs_o s.
Proof.
  intros s Hz.
  assert (Hst : classic_fsm.fsm_state (classic_fsm.posedge i s)
                = classic_fsm.fsm_state s).
  { rewrite posedge_fsm_state, Hz.
    destruct (classic_fsm.lockout (classic_fsm.reset_cnt s)) eqn:E.
    - rewrite next_state_in_lockout by exact E. symmetry.
      now apply lockout_state_A.
    - unfold classic_fsm.next_state_logic. rewrite E.
      destruct (reachable_named ins) as [H | [H | [H | H]]];
        fold s in H; rewrite H; reflexivity. }
  split; [exact Hst|].
  rewrite posedge_outputs_o, Hst. symmetry. apply reachable_outputs.
Qed.

Lemma fsm_holds_without_event_witness :
  let s := classic_fsm.run [3; 3; 3; 3; 3] classic_fsm.init in
  classic_fsm.input_chgs s = 0 /\
  classic_fsm.fsm_state (classic_fsm.posedge 3 s) = classic_fsm.fsm_state s.
Proof.
  intros s. assert (H : classic_fsm.input_chgs s = 0) by reflexivity.
  split; [exact H|].
  exact (proj1 (fsm_holds_without_event [3; 3; 3; 3; 3] 3 H)).
Defined.

(** One edge after the lockout moves a named state by [ring_step]. *)
Lemma ring_edge (cnt state chgs : Z) :
  classic_fsm.lockout cnt = false ->
  classic_fsm.named state ->
  classic_fsm.next_state_logic cnt state chgs
    = ((state + reference.ring_step chgs) mod 4, cnt).
Proof.
  intros Hl Hn. unfold classic_fsm.next_state_logic, reference.ring_step.
  rewrite Hl.
  destruct Hn as [H | [H | [H | H]]]; rewrite H;
    destruct (Z.testbit chgs 0), (Z.testbit chgs 1); reflexivity.
Qed.

Lemma mod4_named (x : Z) : classic_fsm.named (x mod 4).
Proof.
  pose proof (Z.mod_pos_bound x 4 ltac:(lia)) as H.
  unfold classic_fsm.named, classic_fsm.A, classic_fsm.B, classic_fsm.C,
    classic_fsm.D. lia.
Qed.

(** X11: after the lockout the state register is an up/down counter modulo
    4 of the edge events: over any list of [input_chgs] values, a named
    state ends at its index plus the forward events minus the backward ones
    (forward winning when both bits are set), modulo 4.  So forward then
    backward, or four steps one way, come back to the start. *)
Theorem fsm_ring_counter (cnt state : Z) (chgs : list Z) :
  classic_fsm.lockout cnt = false ->
  classic_fsm.named state ->
  classic_fsm.drive chgs (state, cnt)
    = ((state + reference.ring_steps chgs) mod 4, cnt).
Proof.
  intros Hl. revert state. induction chgs as [|c chgs IH]; intros state Hn.
  - cbn. f_equal. unfold classic_fsm.named, classic_fsm.A, classic_fsm.B,
      classic_fsm.C, classic_fsm.D in Hn.
    rewrite Z.add_0_r. symmetry. apply Z.mod_small. lia.
  - unfold classic_fsm.drive. cbn [fold_left].
    rewrite ring_edge by assumption.
    fold (classic_fsm.drive chgs ((state + reference.ring_step c) mod 4, cnt)).
    rewrite IH by apply mod4_named.
    cbn [reference.ring_steps fold_right].
    fold (reference.ring_steps chgs).
    rewrite Zplus_mod_idemp_l. do 2 f_equal. lia.
Qed.

Lemma fsm_ring_counter_witness :
  classic_fsm.lockout 3 = false /\
  classic_fsm.named classic_fsm.C /\
  classic_fsm.drive [1; 2] (classic_fsm.C, 3) = (classic_fsm.C, 3) /\
  classic_fsm.drive [1; 1; 1; 1] (classic_fsm.C, 3) = (classic_fsm.C, 3) /\
  classic_fsm.drive [3; 0; 2; 2] (classic_fsm.C, 3) = (classic_fsm.B, 3).
Proof.
  assert (Hl : classic_fsm.lockout 3 = false) by reflexivity.
  assert (Hn : classic_fsm.named classic_fsm.C) by (right; right; left; reflexivity).
  split; [exact Hl|]. split; [exact Hn|].
  split; [exact (fsm_ring_counter 3 classic_fsm.C [1; 2] Hl Hn)|].
  split; [exact (fsm_ring_counter 3 classic_fsm.C [1; 1; 1; 1] Hl Hn)|].
  exact (fsm_ring_counter 3 classic_fsm.C [3; 0; 2; 2] Hl Hn).
Defined.

(** X12: the state can be read back from the output: in every state of a
    run the output code is 1 shifted left by the state index, and its binary
    logarithm is the state register. *)
Theorem fsm_output_decodes (ins : list Z) :
  let s := classic_fsm.run ins classic_fsm.init in
  classic_fsm.outputs_o s = Z.shiftl 1 (classic_fsm.fsm_state s) /\
  Z.log2 (classic_fsm.outputs_o s) = classic_fsm.fsm_state s.
Proof.
  intros s. pose proof (reachable_outputs ins) as Ho. cbv zeta in Ho.
  fold s in Ho. rewrite Ho.
  destruct (reachable_named ins) as [H | [H | [H | H]]]; fold s in H;
    rewrite H; split; reflexivity.
Qed.

(** The FSM's debounce counters hold their window. *)
Lemma fsm_window_fits :
  0 <= classic_fsm.debounce_time < 2 ^ classic_fsm.dbnc_cnt_bits.
Proof. vm_compute. split; congruence. Qed.

(** No edge event can be up while both debouncers are still quiet. *)
Lemma quiet_input_chgs (ins : list Z) :
  Z.of_nat (length ins) <= classic_fsm.debounce_time + 1 ->
  classic_fsm.input_chgs (classic_fsm.run ins classic_fsm.init) = 0.
Proof.
  intros Hlen.
  pose proof (run_input_chgs ins) as Hc. cbv zeta in Hc. rewrite Hc.
  pose proof (run_dbnc_inputs ins) as Hd. cbv zeta in Hd. rewrite Hd.
  rewrite run_dbnc0, run_dbnc1.
  pose proof fsm_window_fits as HW.
  change (classic_fsm.dbnc0 classic_fsm.init) with debouncer.init.
  change (classic_fsm.dbnc1 classic_fsm.init) with debouncer.init.
  destruct (quiet_invariant classic_fsm.dbnc_cnt_bits classic_fsm.debounce_time
              (reference.bit_trace 0 ins) HW) as (H0 & _).
  { unfold reference.bit_trace. now rewrite length_map. }
  destruct (quiet_invariant classic_fsm.dbnc_cnt_bits classic_fsm.debounce_time
              (reference.bit_trace 1 ins) HW) as (H1 & _).
  { unfold reference.bit_trace. now rewrite length_map. }
  rewrite H0, H1. change (classic_fsm.join_wires false false) with 0.
  unfold classic_fsm.detect_chg. rewrite Z.land_0_l. reflexivity.
Qed.

(** X13: nothing happens before the debouncers can have settled.  Whatever
    the inputs, over the first 120002 edges after construction the state is
    A and the output 0001; the 22 edges of [fsm_tb] therefore never move the
    FSM. *)
Theorem fsm_quiet_period (ins : list Z) :
  Z.of_nat (length ins) <= classic_fsm.debounce_time + 2 ->
  classic_fsm.fsm_state (classic_fsm.run ins classic_fsm.init) = classic_fsm.A /\
  classic_fsm.outputs_o (classic_fsm.run ins classic_fsm.init) = 1.
Proof.
  intros Hlen.
  assert (HA : classic_fsm.fsm_state (classic_fsm.run ins classic_fsm.init)
               = classic_fsm.A).
  { revert Hlen. induction ins as [|i ins IH] using rev_ind; intros Hlen.
    - reflexivity.
    - rewrite length_app in Hlen. cbn [length] in Hlen.
      rewrite fsm_run_app. cbn [classic_fsm.run fold_left].
      fold (classic_fsm.run ins classic_fsm.init).
      rewrite posedge_fsm_state, quiet_input_chgs, IH by lia.
      unfold classic_fsm.next_state_logic.
      now destruct (classic_fsm.lockout _). }
  split; [exact HA|].
  pose proof (reachable_outputs ins) as Ho. cbv zeta in Ho.
  rewrite Ho, HA. reflexivity.
Qed.

Lemma fsm_quiet_period_witness :
  Z.of_nat (length testbench.fsm_tb) <= classic_fsm.debounce_time + 2 /\
  classic_fsm.fsm_state (classic_fsm.run testbench.fsm_tb classic_fsm.init)
    = classic_fsm.A /\
  classic_fsm.outputs_o (classic_fsm.run testbench.fsm_tb classic_fsm.init) = 1.
Proof.
  assert (H : Z.of_nat (length testbench.fsm_tb)
              <= classic_fsm.debounce_time + 2) by (vm_compute; discriminate).
  split; [exact H|]. exact (fsm_quiet_period testbench.fsm_tb H).
Defined.

(** An edge reads the input bus through its bits 0 and 1 only. *)
Lemma posedge_input_bits (i : Z) (s : classic_fsm.signals) :
  classic_fsm.posedge i s =
  classic_fsm.posedge
    (classic_fsm.join_wires (Z.testbit i 0) (Z.testbit i 1)) s.
Proof.
  unfold classic_fsm.posedge, classic_fsm.commit.
  destruct (join_wires_bits (Z.testbit i 0) (Z.testbit i 1)) as (H0 & H1 & _).
  rewrite H0, H1. reflexivity.
Qed.

Lemma run_repeat_input_bits (i : Z) (n : nat) : forall s,
  classic_fsm.run (repeat i n) s =
  classic_fsm.run
    (repeat (classic_fsm.join_wires (Z.testbit i 0) (Z.testbit i 1)) n) s.
Proof.
  induction n as [|n IH]; intros s; [reflexivity|].
  cbn [repeat]. rewrite !fsm_run_cons, IH, <- posedge_input_bits. reflexivity.
Qed.

Lemma run_repeat_fixed (i : Z) (s : classic_fsm.signals) (m : nat) :
  classic_fsm.posedge i s = s -> classic_fsm.run (repeat i m) s = s.
Proof.
  intros Hfix. induction m as [|m IH]; [reflexivity|].
  cbn [repeat]. rewrite fsm_run_cons, Hfix. exact IH.
Qed.

(** The four held inputs, run for 120003 edges from construction. *)
Lemma held_nop :
  let s := classic_fsm.run (repeat 0 (Z.to_nat 120003)) classic_fsm.init in
  classic_fsm.posedge 0 s = s /\ classic_fsm.fsm_state s = classic_fsm.A.
Proof. vm_compute. split; reflexivity. Qed.

Lemma held_fwd :
  let s := classic_fsm.run (repeat 1 (Z.to_nat 120003)) classic_fsm.init in
  classic_fsm.posedge 1 s = s /\ classic_fsm.fsm_state s = classic_fsm.B.
Proof. vm_compute. split; reflexivity. Qed.

Lemma held_bck :
  let s := classic_fsm.run (repeat 2 (Z.to_nat 120003)) classic_fsm.init in
  classic_fsm.posedge 2 s = s /\ classic_fsm.fsm_state s = classic_fsm.D.
Proof. vm_compute. split; reflexivity. Qed.

Lemma held_both :
  let s := classic_fsm.run (repeat 3 (Z.to_nat 120003)) classic_fsm.init in
  classic_fsm.posedge 3 s = s /\ classic_fsm.fsm_state s = classic_fsm.B.
Proof. vm_compute. split; reflexivity. Qed.

(** X14: a held input moves the FSM once.  With one value held on the input
    bus from construction, after 120003 edges and for as long as it is held
    the state is B when bit 0 is set (alone or with bit 1), D when only bit 1
    is set, A otherwise; by X13 this is the first edge at which the state can
    differ from A. *)
Theorem fsm_held_input (i : Z) (m : nat) :
  let s := classic_fsm.run (repeat i (Z.to_nat 120003 + m)) classic_fsm.init in
  classic_fsm.fsm_state s = reference.held_state i /\
  classic_fsm.outputs_o s = classic_fsm.output_logic (reference.held_state i).
Proof.
  intros s.
  assert (Hst : classic_fsm.fsm_state s = reference.held_state i).
  { subst s. rewrite run_repeat_input_bits, repeat_app, fsm_run_app.
    unfold reference.held_state.
    destruct (Z.testbit i 0), (Z.testbit i 1).
    - change (classic_fsm.join_wires true true) with 3.
      destruct held_both as [Hfix Hs]. now rewrite run_repeat_fixed.
    - change (classic_fsm.join_wires true false) with 1.
      destruct held_fwd as [Hfix Hs]. now rewrite run_repeat_fixed.
    - change (classic_fsm.join_wires false true) with 2.
      destruct held_bck as [Hfix Hs]. now rewrite run_repeat_fixed.
    - change (classic_fsm.join_wires false false) with 0.
      destruct held_nop as [Hfix Hs]. now rewrite run_repeat_fixed. }
  split; [exact Hst|]. rewrite <- Hst. apply reachable_outputs.
Qed.

(** X15: no bus ever holds a value outside its width: in every state of a
    run the lockout counter is at most 3, the three 2-bit buses are below 4,
    and both debounce counters are within the window, which fits their 17
    bits. *)
Theorem fsm_buses_in_range (ins : list Z) :
  let s := classic_fsm.run ins classic_fsm.init in
  0 <= classic_fsm.reset_cnt s <= 3 /\
  0 <= classic_fsm.prev_inputs s < 4 /\
  0 <= classic_fsm.dbnc_inputs s < 4 /\
  0 <= classic_fsm.input_chgs s < 4 /\
  0 <= debouncer.debounce_cnt (classic_fsm.dbnc0 s) <= 120000 /\
  0 <= debouncer.debounce_cnt (classic_fsm.dbnc1 s) <= 120000 /\
  120000 < hdl.bus_max (debouncer.cnt_width classic_fsm.debounce_time).
Proof.
  intros s.
  pose proof fsm_window_fits as HW.
  split.
  { subst s. rewrite reset_cnt_run by (cbn; lia). cbn. lia. }
  split.
  { subst s. destruct ins as [|i ins] using rev_ind; [cbn; lia|].
    rewrite fsm_run_app. cbn [classic_fsm.run fold_left].
    rewrite posedge_prev_inputs.
    apply (bus_assign_range classic_fsm.inputs_width). vm_compute. discriminate. }
  split.
  { pose proof (run_dbnc_inputs ins) as Hd. cbv zeta in Hd. fold s in Hd.
    rewrite Hd.
    destruct (debouncer.button_o (classic_fsm.dbnc0 s)),
      (debouncer.button_o (classic_fsm.dbnc1 s)); cbn; lia. }
  split.
  { pose proof (run_input_chgs ins) as Hc. cbv zeta in Hc. fold s in Hc.
    rewrite Hc. unfold classic_fsm.detect_chg.
    apply (bus_assign_range classic_fsm.inputs_width). vm_compute. discriminate. }
  subst s. rewrite run_dbnc0, run_dbnc1.
  split; [|split].
  - apply (cnt_range_run classic_fsm.dbnc_cnt_bits classic_fsm.debounce_time);
      [exact HW | cbn; lia].
  - apply (cnt_range_run classic_fsm.dbnc_cnt_bits classic_fsm.debounce_time);
      [exact HW | cbn; lia].
  - vm_compute. reflexivity.
Qed.

(** ** Debouncer: a held value always gets through *)

(** X16: for a debouncer whose counter holds the window, whatever happened
    before, a raw value sampled on [W + 2] consecutive edges is on the stable
    output after the last of them, and stays there while it is held. *)
Theorem debounce_held_value_wins (cnt_bits W : Z) (pre : list bool)
    (v : bool) (m : nat) :
  1 <= W < 2 ^ cnt_bits ->
  debouncer.button_o
    (debouncer.run cnt_bits W (pre ++ repeat v (Z.to_nat W + 2 + m))
       debouncer.init) = v.
Proof.
  intros HW1. assert (HW : 0 <= W < 2 ^ cnt_bits) by lia.
  rewrite run_app.
  assert (Hc : 0 <= debouncer.debounce_cnt
                      (debouncer.run cnt_bits W pre debouncer.init) <= W)
    by (apply cnt_range_run; [assumption | cbn; lia]).
  destruct (debouncer.run cnt_bits W pre debouncer.init) as [c p o].
  cbn [debouncer.debounce_cnt] in Hc.
  destruct (Bool.bool_dec v p) as [<- | Hne].
  - replace (Z.to_nat W + 2 + m)%nat
      with (Z.to_nat c + (1 + (Z.to_nat (W - c) + 1 + m)))%nat by lia.
    rewrite repeat_app, run_app.
    destruct (counting_down cnt_bits W HW (Z.to_nat c) c v o ltac:(lia))
      as [Hr _].
    rewrite Hr. replace (c - Z.of_nat (Z.to_nat c)) with 0 by lia.
    cbn [repeat Nat.add]. rewrite run_cons, posedge_idle. apply steady.
  - replace (Z.to_nat W + 2 + m)%nat
      with (S (Z.to_nat W + (1 + m)))%nat by lia.
    cbn [repeat]. rewrite run_cons, posedge_changed by assumption.
    rewrite repeat_app, run_app.
    destruct (counting_down cnt_bits W HW (Z.to_nat W) W v
                (if c =? 0 then p else o) ltac:(lia)) as [Hr _].
    rewrite Hr. replace (W - Z.of_nat (Z.to_nat W)) with 0 by lia.
    cbn [repeat Nat.add]. rewrite run_cons, posedge_idle. apply steady.
Qed.

(** The end of [debounce_tb]: after two blips, five samples of 0 bring the
    output down at the last edge. *)
Lemma debounce_held_value_wins_witness :
  1 <= 3 < 2 ^ debouncer.cnt_width 3 /\
  testbench.debounce_tb
    = firstn 8 testbench.debounce_tb ++ repeat false (Z.to_nat 3 + 2 + 0) /\
  debouncer.button_o
    (debouncer.run (debouncer.cnt_width 3) 3 testbench.debounce_tb
       debouncer.init) = false.
Proof.
  assert (H : 1 <= 3 < 2 ^ debouncer.cnt_width 3)
    by (vm_compute; split; congruence).
  split; [exact H|]. split; [reflexivity|].
  exact (debounce_held_value_wins (debouncer.cnt_width 3) 3
           (firstn 8 testbench.debounce_tb) false 0 H).
Defined.

(** X18: propagation, for a debouncer whose counter holds the window.  Edges
    are numbered from 0, edge 0 being the first that samples the new raw
    value [v], and the output at a step is the value committed by that edge.
    When the stored input and the stable output both still hold the old
    value and the raw input keeps [v], the output holds the old value at
    steps [0 .. W] and equals [v] at step [W + 1] and at every later step;
    for the value at step [W + 1] the raw input need only have kept [v]
    through step [W]. *)
Theorem debounce_propagation (cnt_bits W : Z) (s : debouncer.signals)
    (v : bool) (m : nat) :
  1 <= W < 2 ^ cnt_bits ->
  debouncer.prev_button s = negb v ->
  debouncer.button_o s = negb v ->
  debouncer.outputs cnt_bits W (repeat v (Z.to_nat W + 2 + m)) s =
  repeat (negb v) (Z.to_nat W + 1) ++ repeat v (1 + m) /\
  (forall b, debouncer.button_o
     (debouncer.run cnt_bits W (repeat v (Z.to_nat W + 1) ++ [b]) s) = v).
Proof.
  intros HW1 Hp Ho. destruct s as [c p o]. simpl in Hp, Ho. subst p o.
  assert (HW : 0 <= W < 2 ^ cnt_bits) by lia.
  assert (Hne : v <> negb v).
  { intros E. symmetry in E. revert E. apply Bool.no_fixpoint_negb. }
  split.
  2:{ intros b. rewrite run_app.
      replace (Z.to_nat W + 1)%nat with (S (Z.to_nat W)) by lia.
      cbn [repeat]. rewrite (run_cons cnt_bits W v).
      rewrite posedge_changed by assumption.
      destruct (counting_down cnt_bits W HW (Z.to_nat W) W v
                  (if c =? 0 then negb v else negb v) ltac:(lia)) as [Hr _].
      rewrite Hr. replace (W - Z.of_nat (Z.to_nat W)) with 0 by lia.
      reflexivity. }
  replace (Z.to_nat W + 2 + m)%nat
    with (1 + (Z.to_nat W + (1 + m)))%nat by lia.
  replace (Z.to_nat W + 1)%nat with (1 + Z.to_nat W)%nat by lia.
  rewrite !repeat_app.
  change (repeat v 1) with [v]. change (repeat (negb v) 1) with [negb v].
  cbn [app debouncer.outputs].
  rewrite posedge_changed by assumption.
  replace (if c =? 0 then negb v else negb v) with (negb v)
    by now destruct (c =? 0).
  cbn [debouncer.button_o]. f_equal.
  rewrite outputs_app.
  destruct (counting_down cnt_bits W HW (Z.to_nat W) W v (negb v) ltac:(lia))
    as [Hr Hout].
  rewrite Hr, Hout. f_equal.
  replace (W - Z.of_nat (Z.to_nat W)) with 0 by lia.
  cbn [debouncer.outputs]. rewrite posedge_idle.
  cbn [debouncer.button_o]. f_equal. apply steady.
Qed.

(** Window 3 on the source's 2-bit counter: the raw input goes from 0 to 1
    at step 0 and stays 1 through step 10; the output is 0 at steps 0 to 3
    and 1 from step 4 on. *)
Lemma debounce_propagation_witness :
  1 <= 3 < 2 ^ debouncer.cnt_width 3 /\
  debouncer.prev_button debouncer.init = negb true /\
  debouncer.button_o debouncer.init = negb true /\
  debouncer.outputs (debouncer.cnt_width 3) 3 (repeat true 11) debouncer.init =
  [false; false; false; false; true; true; true; true; true; true; true].
Proof.
  assert (H : 1 <= 3 < 2 ^ debouncer.cnt_width 3)
    by (vm_compute; split; congruence).
  split; [exact H|]. split; [reflexivity|]. split; [reflexivity|].
  exact (proj1 (debounce_propagation (debouncer.cnt_width 3) 3 debouncer.init
                  true 6 H eq_refl eq_refl)).
Defined.

(** ** Classic FSM: the state counts debounced edges *)

Lemma chgs_trace_snoc (ins : list Z) (i : Z) : forall s,
  reference.chgs_trace (ins ++ [i]) s =
  reference.chgs_trace ins s ++ [classic_fsm.input_chgs (classic_fsm.run ins s)].
Proof.
  induction ins as [|j ins IH]; intros s; [reflexivity|].
  cbn [app reference.chgs_trace]. rewrite IH, fsm_run_cons. reflexivity.
Qed.

Lemma ring_steps_snoc (l : list Z) (c : Z) :
  reference.ring_steps (l ++ [c])
  = reference.ring_steps l + reference.ring_step c.
Proof.
  induction l as [|x l IH]; cbn [app reference.ring_steps fold_right].
  - lia.
  - fold (reference.ring_steps (l ++ [c])). fold (reference.ring_steps l).
    rewrite IH. lia.
Qed.

(** X17: from construction on, the state register is the up/down count,
    modulo 4, of the edge events that the successive clock edges found:
    forward for a rise of debounced bit 0, backward for a rise of debounced
    bit 1 alone.  The start-up lockout loses nothing, since no event can be
    up that early. *)
Theorem fsm_state_counts_events (ins : list Z) :
  classic_fsm.fsm_state (classic_fsm.run ins classic_fsm.init)
  = reference.ring_steps (reference.chgs_trace ins classic_fsm.init) mod 4.
Proof.
  induction ins as [|i ins IH] using rev_ind; [reflexivity|].
  rewrite chgs_trace_snoc, ring_steps_snoc, fsm_run_app.
  cbn [classic_fsm.run fold_left].
  fold (classic_fsm.run ins classic_fsm.init).
  rewrite posedge_fsm_state.
  destruct (classic_fsm.lockout
              (classic_fsm.reset_cnt (classic_fsm.run ins classic_fsm.init)))
    eqn:E.
  - rewrite next_state_in_lockout by exact E. cbn [fst].
    pose proof (lockout_state_A ins E) as HA. rewrite IH in HA.
    assert (Hlen : Z.of_nat (length ins) < 3).
    { rewrite lockout_spec in E. apply Z.ltb_lt in E.
      rewrite reset_cnt_run in E by (cbn; lia). cbn in E. lia. }
    rewrite quiet_input_chgs
      by (unfold classic_fsm.debounce_time; lia).
    change (reference.ring_step 0) with 0. rewrite Z.add_0_r. now rewrite HA.
  - rewrite ring_edge; [| exact E | apply reachable_named].
    cbn [fst]. rewrite IH. apply Zplus_mod_idemp_l.
Qed.
